(** * life-tracker: the task lifecycle and metrics of [src/app/page.tsx]

    A shallow embedding of the [Home] component of the daily-task tracker:
    its state, its actions ([addBlock], [deleteBlock], [handleDragEnd]),
    the recurrence and storage effects, and the derived metrics
    ([progress], [streak], [weeklyData]), followed by the properties of the
    specification that concern them.

    JavaScript values are modelled as follows.
    - A string is the list of its UTF-16 code units.
    - A [number] is the rational it denotes; arithmetic that rounds
      ([/] and [*] on doubles) rounds to 53 significant bits, ties to even.
    - An array is a list, and the state cell [blocks] a list of blocks; an
      update that would put something else than a block in it has no
      result ([None]).
    - An exception that leaves an effect is [None] as well.
    - The wall clock and the identifiers drawn from it are inputs; the
      dates the page derives from the clock in a time zone are those of
      [pageClock]. *)

From Stdlib Require Import String Ascii.
From Stdlib Require Import List ZArith NArith QArith Qround Qabs Qpower.
From Stdlib Require Import Bool Lia Lqa.
From Stdlib Require Import Permutation Sorted.
Import ListNotations.

Set Implicit Arguments.

(** ** JavaScript strings *)

Definition jsstring := list N.

(** A string literal of the page, as code units. *)
Definition js (s : string) : jsstring :=
  map N_of_ascii (list_ascii_of_string s).
Arguments js s%_string.

Fixpoint str_eqb (a b : jsstring) : bool :=
  match a, b with
  | [], [] => true
  | x :: a', y :: b' => N.eqb x y && str_eqb a' b'
  | _, _ => false
  end.

(** [WhiteSpace] and [LineTerminator] code points of ECMAScript, the ones
    [String.prototype.trim] strips. *)
Definition isWhiteSpace (c : N) : bool :=
  existsb (N.eqb c)
    [ 9; 10; 11; 12; 13; 32; 160; 5760;
      8192; 8193; 8194; 8195; 8196; 8197; 8198; 8199; 8200; 8201; 8202;
      8232; 8233; 8239; 8287; 12288; 65279 ]%N.

Fixpoint trimStart (s : jsstring) : jsstring :=
  match s with
  | c :: r => if isWhiteSpace c then trimStart r else s
  | [] => []
  end.

Definition trimEnd (s : jsstring) : jsstring := rev (trimStart (rev s)).

Definition trim (s : jsstring) : jsstring := trimEnd (trimStart s).

(** Truthiness of a string: the empty string is the only falsy one. *)
Definition truthy (s : jsstring) : bool :=
  match s with [] => false | _ => true end.

(** [s.slice(n)] for [0 <= n]. *)
Definition slice (n : nat) (s : jsstring) : jsstring := skipn n s.

(** ** JavaScript arrays *)

Section Arrays.
Variable A : Type.

(** [l.findIndex(p)]: the first index at which [p] holds, else [-1]. *)
Fixpoint findIndex_from (p : A -> bool) (l : list A) (i : Z) : Z :=
  match l with
  | [] => (-1)%Z
  | x :: r => if p x then i else findIndex_from p r (i + 1)%Z
  end.

Definition findIndex (p : A -> bool) (l : list A) : Z :=
  findIndex_from p l 0%Z.

(** The start position [splice] computes from its first argument:
    a negative one counts from the end, and the result is clamped to
    [0 .. len]. *)
Definition actualStart (len : nat) (start : Z) : nat :=
  if (start <? 0)%Z
  then Z.to_nat (Z.max (Z.of_nat len + start) 0)
  else Z.to_nat (Z.min start (Z.of_nat len)).

(** [l.splice(start, 1)]: the removed elements and what is left of [l]. *)
Definition splice_remove1 (start : Z) (l : list A) : list A * list A :=
  let k := actualStart (length l) start in
  (firstn 1 (skipn k l), firstn k l ++ skipn (S k) l).

(** [l.splice(start, 0, x)]: [l] with [x] inserted. *)
Definition splice_insert (start : Z) (x : A) (l : list A) : list A :=
  let k := actualStart (length l) start in
  firstn k l ++ x :: skipn k l.

(** [l.map((b, i) => f(b, i))], indices counted from [i]. *)
Fixpoint mapi_from (B : Type) (f : A -> nat -> B) (l : list A) (i : nat)
  : list B :=
  match l with
  | [] => []
  | x :: r => f x i :: mapi_from f r (S i)
  end.

Definition mapi (B : Type) (f : A -> nat -> B) (l : list A) : list B :=
  mapi_from f l 0.
End Arrays.

(** ** JavaScript numbers *)

Local Open Scope Q_scope.

Definition number := Q.

(** [a === b] on numbers. *)
Definition num_eqb (a b : number) : bool := Qeq_bool a b.

(** The exponent of the leading bit of a positive rational:
    [2 ^ floor_log2 x <= x < 2 ^ (floor_log2 x + 1)]. *)
Definition floor_log2 (x : Q) : Z :=
  let k := (Z.log2 (Qnum x) - Z.log2 (Zpos (Qden x)))%Z in
  if Qle_bool (2 ^ k) x then k else (k - 1)%Z.

(** The integer nearest to [x], a tie going to the even one. *)
Definition round_half_even (x : Q) : Z :=
  let f := Qfloor x in
  match Qcompare (x - inject_Z f) (1 # 2) with
  | Lt => f
  | Gt => (f + 1)%Z
  | Eq => if Z.even f then f else (f + 1)%Z
  end.

(** The double nearest to a rational (IEEE 754 binary64, round to nearest,
    ties to even), the exponent range taken as unbounded. *)
Definition round64_pos (x : Q) : Q :=
  let e := (floor_log2 x - 52)%Z in
  inject_Z (round_half_even (x / 2 ^ e)) * 2 ^ e.

Definition round64 (x : Q) : number :=
  match Qcompare x 0 with
  | Eq => 0
  | Gt => round64_pos x
  | Lt => - round64_pos (- x)
  end.

(** [a / b], for [b] other than 0, and [a * b] on doubles. *)
Definition fdiv (a b : number) : number := round64 (a / b).
Definition fmul (a b : number) : number := round64 (a * b).

(** [Math.round(x)]: the nearest integer, a tie going up. *)
Definition Math_round (x : number) : Z := Qfloor (x + (1 # 2)).

(** An array length as a number. *)
Definition num_of_nat (n : nat) : number := inject_Z (Z.of_nat n).

Local Close Scope Q_scope.

(** ** Types of the page *)

Inductive Category := Work | Health | Skill | Personal.

(** [order] holds array lengths and indices, which are integers. *)
Record Block := mkBlock {
  id : number;
  title : jsstring;
  completed : bool;
  category : Category;
  date : jsstring;
  isRecurring : bool;
  order : Z
}.

(** The [useState] cells of [Home]: [blocks], [newBlock], [category] and
    [isRecurring], the last two named after the form they belong to. *)
Record State := mkState {
  blocks : list Block;
  newBlock : jsstring;
  form_category : Category;
  form_isRecurring : bool
}.

Definition setBlocks (v : list Block) (st : State) : State :=
  mkState v (newBlock st) (form_category st) (form_isRecurring st).

Definition setNewBlock (v : jsstring) (st : State) : State :=
  mkState (blocks st) v (form_category st) (form_isRecurring st).

Definition setIsRecurring (v : bool) (st : State) : State :=
  mkState (blocks st) (newBlock st) (form_category st) v.

(** The argument of [handleDragEnd]: [active.id], and [over.id] unless
    [over] is null. *)
Record DragEndEvent := mkDragEnd {
  active : number;
  over : option number
}.

(** One entry of [weeklyData], [{ date, completed }]. *)
Record DayCount := mkDayCount {
  day_label : jsstring;
  day_completed : nat
}.

(** [{ ...b, order: i }] *)
Definition with_order (i : Z) (b : Block) : Block :=
  mkBlock (id b) (title b) (completed b) (category b) (date b)
          (isRecurring b) i.

(** [{ ...b, completed: !b.completed }] *)
Definition with_toggled (b : Block) : Block :=
  mkBlock (id b) (title b) (negb (completed b)) (category b) (date b)
          (isRecurring b) (order b).

(** [{ ...b, id: i, completed: false, date: d }] *)
Definition regenerated (i : number) (d : jsstring) (b : Block) : Block :=
  mkBlock i (title b) false (category b) d (isRecurring b) (order b).

(** [l.sort((a, b) => a.order - b.order)]: ascending [order], blocks of
    equal [order] keeping their relative position. *)
Fixpoint insert_by_order (x : Block) (l : list Block) : list Block :=
  match l with
  | [] => [x]
  | y :: r => if (order x <=? order y)%Z then x :: l
              else y :: insert_by_order x r
  end.

Fixpoint sort_by_order (l : list Block) : list Block :=
  match l with
  | [] => []
  | x :: r => insert_by_order x (sort_by_order r)
  end.

Definition order_le (a b : Block) : Prop := (order a <= order b)%Z.

(** ** The component *)

Section Home.

(** [daysAgo i] is the date string the page computes for the day [i]
    days before now:
    [d = new Date(); d.setDate(d.getDate() - i);
     d.toISOString().split("T")[0]]. *)
Variable daysAgo : nat -> jsstring.

(** [new Date().toISOString().split("T")[0]] *)
Definition todayStr : jsstring := daysAgo 0.

Definition last7Days : list jsstring :=
  map (fun i => daysAgo (6 - i)) (seq 0 7).

(** Day [i] counts: some block dated [i] days ago is completed,
    [blocks.some(b => b.date === date && b.completed)]. *)
Definition day_counts (bs : list Block) (i : nat) : bool :=
  existsb (fun b => str_eqb (date b) (daysAgo i) && completed b) bs.

(** The [for] loop of [streak]: [n] iterations are left, [i] is the loop
    counter and [s] the count so far. *)
Fixpoint streak_loop (bs : list Block) (n i s : nat) : nat :=
  match n with
  | 0 => s
  | S n' =>
      if day_counts bs i then streak_loop bs n' (S i) (S s) else s
  end.

Definition streak (bs : list Block) : nat := streak_loop bs 365 0 0.

(** [const today = todayStr()], read at each render. *)
Definition today : jsstring := todayStr.

(** *** Storage *)

(** The effect that reads [localStorage.getItem("blocks")], here [saved].
    [JSON_parse s] is [None] when [JSON.parse(s)] throws, and the array of
    blocks a snapshot written by the page parses to otherwise. The effect
    is [None] when the exception leaves it. *)
Definition storage_load (JSON_parse : jsstring -> option (list Block))
    (saved : option jsstring) (st : State) : option State :=
  match saved with
  | None => Some st
  | Some s =>
      if truthy s
      then match JSON_parse s with
           | Some v => Some (setBlocks v st)
           | None => None
           end
      else Some st
  end.

(** *** Recurring blocks *)

Definition templates (st : State) : list Block :=
  filter (fun b => isRecurring b && negb (str_eqb (date b) today))
         (blocks st).

Definition existsToday (st : State) : bool :=
  existsb (fun b => isRecurring b && str_eqb (date b) today) (blocks st).

(** [fresh k] is the value of [Date.now() + Math.random()] in the call
    of the [map] callback at index [k]. *)
Definition generated (fresh : nat -> number) (st : State) : list Block :=
  mapi (fun b k => regenerated (fresh k) today b) (templates st).

Definition recurrence (fresh : nat -> number) (st : State) : State :=
  if existsToday st then st
  else if (length (generated fresh st) =? 0)%nat then st
       else setBlocks (blocks st ++ generated fresh st) st.

(** *** Derived values *)

Definition todaysBlocks (st : State) : list Block :=
  sort_by_order (filter (fun b => str_eqb (date b) today) (blocks st)).

Definition progress (st : State) : Z :=
  let completed_ := length (filter completed (todaysBlocks st)) in
  if (length (todaysBlocks st) =? 0)%nat then 0%Z
  else Math_round
         (fmul (fdiv (num_of_nat completed_)
                     (num_of_nat (length (todaysBlocks st))))
               100%Q).

Definition weeklyData (st : State) : list DayCount :=
  map (fun d =>
         mkDayCount (slice 5 d)
           (length (filter (fun b => str_eqb (date b) d && completed b)
                           (blocks st))))
      last7Days.

(** *** Actions *)

(** [now] is the value of [Date.now()]; [todaysBlocks] and the argument
    of the updater are taken from the same state. *)
Definition addBlock (now : Z) (st : State) : State :=
  if negb (truthy (trim (newBlock st))) then st
  else
    setIsRecurring false
      (setNewBlock []
         (setBlocks
            (blocks st ++
               [ mkBlock (inject_Z now) (newBlock st) false
                   (form_category st) today (form_isRecurring st)
                   (Z.of_nat (length (todaysBlocks st))) ])
            st)).

Definition toggleBlock (i : number) (st : State) : State :=
  setBlocks
    (map (fun b => if num_eqb (id b) i then with_toggled b else b)
         (blocks st))
    st.

Definition deleteBlock (i : number) (st : State) : State :=
  setBlocks (filter (fun b => negb (num_eqb (id b) i)) (blocks st)) st.

(** The function handed to [setBlocks] by [handleDragEnd]. When today
    has no block, [splice] removes nothing, [moved] is [undefined] and
    the array built from it holds [{ order: 0 }], which is not a block:
    the result is then [None]. *)
Definition reorder (activeId overId : number) (prev : list Block)
  : option (list Block) :=
  let todayItems :=
    sort_by_order (filter (fun b => str_eqb (date b) today) prev) in
  let oldIndex := findIndex (fun b => num_eqb (id b) activeId) todayItems in
  let newIndex := findIndex (fun b => num_eqb (id b) overId) todayItems in
  let (removed, reordered) := splice_remove1 oldIndex todayItems in
  match removed with
  | [] => None
  | moved :: _ =>
      let reordered' := splice_insert newIndex moved reordered in
      let updated :=
        mapi (fun b i => with_order (Z.of_nat i) b) reordered' in
      let others :=
        filter (fun b => negb (str_eqb (date b) today)) prev in
      Some (others ++ updated)
  end.

Definition handleDragEnd (event : DragEndEvent) (st : State)
  : option State :=
  match over event with
  | None => Some st
  | Some overId =>
      if num_eqb (active event) overId then Some st
      else match reorder (active event) overId (blocks st) with
           | Some v => Some (setBlocks v st)
           | None => None
           end
  end.

(** *** What the specification says of the chart *)

(** The number of completed blocks dated [d]. *)
Definition completed_on (d : jsstring) (bs : list Block) : nat :=
  length (filter (fun b => str_eqb (date b) d && completed b) bs).

(** The bar of the day [i] days ago. *)
Definition bar (bs : list Block) (i : nat) : DayCount :=
  mkDayCount (slice 5 (daysAgo i)) (completed_on (daysAgo i) bs).

(** *** The order invariant *)

Definition on_date (d : jsstring) (bs : list Block) : list Block :=
  filter (fun b => str_eqb (date b) d) bs.

(** The [order] values of the blocks of date [d] are [0 .. n-1], each
    once, [n] being the number of those blocks. *)
Definition dense_on (d : jsstring) (bs : list Block) : Prop :=
  Permutation (map order (on_date d bs))
              (map Z.of_nat (seq 0 (length (on_date d bs)))).

Definition dense (bs : list Block) : Prop :=
  forall d, dense_on d bs.

End Home.

(** ** A calendar to run the page on

    [isoDate n] is the ISO date of day [n] counted from 1970-01-01, and
    [clockAt n] the clock of a page opened on day [n]. *)

Definition digit (n : Z) : N := (48 + Z.to_N (n mod 10))%N.

Definition isoDate (n : Z) : jsstring :=
  let z := (n + 719468)%Z in
  let era := (z / 146097)%Z in
  let doe := (z - era * 146097)%Z in
  let yoe := ((doe - doe / 1460 + doe / 36524 - doe / 146096) / 365)%Z in
  let doy := (doe - (365 * yoe + yoe / 4 - yoe / 100))%Z in
  let mp := ((5 * doy + 2) / 153)%Z in
  let d := (doy - (153 * mp + 2) / 5 + 1)%Z in
  let m := (if mp <? 10 then mp + 3 else mp - 9)%Z in
  let y := (yoe + era * 400 + (if m <=? 2 then 1 else 0))%Z in
  [ digit (y / 1000); digit (y / 100); digit (y / 10); digit y; 45%N;
    digit (m / 10); digit m; 45%N; digit (d / 10); digit d ].

Definition clockAt (n : Z) (i : nat) : jsstring := isoDate (n - Z.of_nat i).

(** ** The clock of the page

    A [Date] holds a time value, the milliseconds since 1970-01-01T00:00Z.
    [getDate] and [setDate] work on local time, which the time zone
    derives from it; [toISOString] prints the date in UTC. *)

Definition msPerDay : Z := 86400000.
Definition msPerHour : Z := 3600000.

Definition Day (t : Z) : Z := t / msPerDay.
Definition TimeWithinDay (t : Z) : Z := t mod msPerDay.

(** Year, month and day of the month of a day number. *)
Definition civil (n : Z) : Z * Z * Z :=
  let z := (n + 719468)%Z in
  let era := (z / 146097)%Z in
  let doe := (z - era * 146097)%Z in
  let yoe := ((doe - doe / 1460 + doe / 36524 - doe / 146096) / 365)%Z in
  let doy := (doe - (365 * yoe + yoe / 4 - yoe / 100))%Z in
  let mp := ((5 * doy + 2) / 153)%Z in
  let d := (doy - (153 * mp + 2) / 5 + 1)%Z in
  let m := (if mp <? 10 then mp + 3 else mp - 9)%Z in
  let y := (yoe + era * 400 + (if m <=? 2 then 1 else 0))%Z in
  (y, m, d).

Definition DateFromTime (t : Z) : Z := snd (civil (Day t)).

(** A time zone: the offset of local time from UTC in force at a time
    value, [LocalTZA(t, true)], and the one a local time value is read
    with, [LocalTZA(t, false)]. *)
Record TimeZone := mkZone {
  offsetAt : Z -> Z;
  offsetOfLocal : Z -> Z
}.

Definition LocalTime (tz : TimeZone) (t : Z) : Z := (t + offsetAt tz t)%Z.

Definition UTC (tz : TimeZone) (tl : Z) : Z := (tl - offsetOfLocal tz tl)%Z.

(** [d.getDate()], for [d] of time value [t]. *)
Definition getDate (tz : TimeZone) (t : Z) : Z :=
  DateFromTime (LocalTime tz t).

(** The time value of [d] after [d.setDate(date)]: the day [date] of the
    month of [d] in local time, counted from the first of that month and
    running into the months before or after, at the local time of day of
    [d]. *)
Definition setDate (tz : TimeZone) (date : Z) (t : Z) : Z :=
  let tl := LocalTime tz t in
  let first := (Day tl - (DateFromTime tl - 1))%Z in
  UTC tz ((first + date - 1) * msPerDay + TimeWithinDay tl)%Z.

(** [d.toISOString().split("T")[0]] *)
Definition toISODate (t : Z) : jsstring := isoDate (Day t).

(** The dates the page computes at the time value [now]:
    [d = new Date(); d.setDate(d.getDate() - i);
     d.toISOString().split("T")[0]]. *)
Definition pageClock (tz : TimeZone) (now : Z) (i : nat) : jsstring :=
  toISODate (setDate tz (getDate tz now - Z.of_nat i) now).

(** A zone that keeps one offset. *)
Definition fixedZone (offset : Z) : TimeZone :=
  mkZone (fun _ => offset) (fun _ => offset).

(** New York in 2023 and 2024: five hours behind UTC, four from the
    second Sunday of March, 07:00Z, to the first Sunday of November,
    06:00Z. A local time the clocks skip or repeat is read with the offset
    of before the change. *)
Definition within (a b t : Z) : bool := ((a <=? t) && (t <? b))%Z.

Definition newYork : TimeZone :=
  mkZone
    (fun t =>
       if within (19428 * msPerDay + 7 * msPerHour)
                 (19666 * msPerDay + 6 * msPerHour) t
          || within (19792 * msPerDay + 7 * msPerHour)
                    (20030 * msPerDay + 6 * msPerHour) t
       then (-4 * msPerHour)%Z else (-5 * msPerHour)%Z)
    (fun tl =>
       if within (19428 * msPerDay + 3 * msPerHour)
                 (19666 * msPerDay + 2 * msPerHour) tl
          || within (19792 * msPerDay + 3 * msPerHour)
                    (20030 * msPerDay + 2 * msPerHour) tl
       then (-4 * msPerHour)%Z else (-5 * msPerHour)%Z).

(** 2024-03-10T23:30Z, half past seven in the evening in New York. *)
Definition march10_evening : Z := (19792 * msPerDay + 47 * 1800000)%Z.

(** ** What the specification says of a day's count

    [n] is the number of blocks of [bs] dated [d] and completed: [bs]
    splits into those blocks, [n] of them, and the others. *)
Definition counts_completed (d : jsstring) (bs : list Block) (n : nat)
  : Prop :=
  exists yes no,
    Permutation bs (yes ++ no) /\
    Forall (fun b => date b = d /\ completed b = true) yes /\
    Forall (fun b => ~ (date b = d /\ completed b = true)) no /\
    n = length yes.

(** Some block of [bs] dated [d] is completed. *)
Definition has_completed (d : jsstring) (bs : list Block) : Prop :=
  exists b, In b bs /\ date b = d /\ completed b = true.

(** ** What the specification says of a deletion

    [removes_only i l l']: [l'] is [l] without the blocks whose [id] is
    [i]; every other block stays where it is, as it is. *)

Inductive removes_only (i : number) : list Block -> list Block -> Prop :=
| removes_nil : removes_only i [] []
| removes_drop b l l' :
    Qeq (id b) i -> removes_only i l l' -> removes_only i (b :: l) l'
| removes_keep b l l' :
    ~ Qeq (id b) i -> removes_only i l l' ->
    removes_only i (b :: l) (b :: l').

(** ** The actions that do not delete

    One step of the page through an action other than [deleteBlock]: a
    block added, a drag that ended, a block toggled, or an edit of the
    form. The clock is the one of the moment of the action. *)

Inductive action_step : State -> State -> Prop :=
| step_add daysAgo now st :
    action_step st (addBlock daysAgo now st)
| step_drag daysAgo event st st' :
    handleDragEnd daysAgo event st = Some st' -> action_step st st'
| step_toggle i st :
    action_step st (toggleBlock i st)
| step_form st t c r :
    action_step st (mkState (blocks st) t c r).

Inductive reachable : State -> State -> Prop :=
| reach_refl st : reachable st st
| reach_step st st' st'' :
    reachable st st' -> action_step st' st'' -> reachable st st''.

(** ** Stores to run the page on *)

Definition block (i : Z) (t : string) (c : bool) (d : string) (r : bool)
    (o : Z) : Block :=
  mkBlock (inject_Z i) (js t) c Work (js d) r o.

Definition store (bs : list Block) : State := mkState bs [] Work false.

(** The page opened on 2024-01-02. *)
Definition jan2 : nat -> jsstring := clockAt 19724.

(** * Properties *)

(** ** Strings and numbers *)

Lemma str_eqb_eq a b : str_eqb a b = true <-> a = b.
Proof.
  revert b; induction a as [|x a IH]; intros [|y b]; simpl;
    try (split; [discriminate | congruence]); try tauto.
  rewrite andb_true_iff, N.eqb_eq, IH. split.
  - intros [-> ->]; reflexivity.
  - intros H; injection H; auto.
Qed.

Lemma str_eqb_refl a : str_eqb a a = true.
Proof. apply str_eqb_eq; reflexivity. Qed.

Lemma str_eqb_neq a b : str_eqb a b = false <-> a <> b.
Proof.
  rewrite <- str_eqb_eq. destruct (str_eqb a b); split; congruence.
Qed.

Lemma num_eqb_eq a b : num_eqb a b = true <-> Qeq a b.
Proof. apply Qeq_bool_iff. Qed.

Lemma trimStart_blank s :
  Forall (fun c => isWhiteSpace c = true) s -> trimStart s = [].
Proof.
  induction 1 as [|c s Hc _ IH]; simpl; [reflexivity|].
  rewrite Hc; exact IH.
Qed.

Lemma trimStart_keeps c s :
  In c s -> isWhiteSpace c = false -> In c (trimStart s).
Proof.
  induction s as [|x s IH]; simpl; [tauto|].
  intros [->|Hin] Hc.
  - rewrite Hc; left; reflexivity.
  - destruct (isWhiteSpace x); [auto | right; exact Hin].
Qed.

Lemma trim_blank s :
  Forall (fun c => isWhiteSpace c = true) s -> trim s = [].
Proof.
  intros H. unfold trim, trimEnd. rewrite (trimStart_blank H). reflexivity.
Qed.

Lemma trim_keeps c s :
  In c s -> isWhiteSpace c = false -> In c (trim s).
Proof.
  intros Hin Hc. unfold trim, trimEnd.
  apply -> in_rev. apply trimStart_keeps; [|exact Hc].
  apply -> in_rev. apply trimStart_keeps; assumption.
Qed.

(** ** Rounding to a double *)

Section Rounding.
Local Open Scope Q_scope.

Lemma two_pow_pos k : 0 < 2 ^ k.
Proof. apply Qpower_0_lt. reflexivity. Qed.

Lemma two_pow_sub a b : 2 ^ (a - b) == 2 ^ a / 2 ^ b.
Proof. apply Qpower_minus. discriminate. Qed.

Lemma inject_two_pow a : (0 <= a)%Z -> inject_Z (2 ^ a) == 2 ^ a.
Proof. intros H. rewrite Zpower_Qpower by exact H. reflexivity. Qed.

Lemma log2_bounds_Q n :
  (0 < n)%Z -> 2 ^ Z.log2 n <= inject_Z n /\ inject_Z n < 2 ^ (Z.log2 n + 1).
Proof.
  intros H. destruct (Z.log2_spec n H) as [L U].
  pose proof (Z.log2_nonneg n) as P. split.
  - rewrite <- inject_two_pow by exact P. rewrite <- Zle_Qle. exact L.
  - rewrite <- inject_two_pow by lia. rewrite <- Zlt_Qlt.
    replace (Z.log2 n + 1)%Z with (Z.succ (Z.log2 n)) by lia. exact U.
Qed.

Lemma div_mul_lt A B D N :
  0 < A -> 0 < B -> D < B -> A <= N -> A / B * D < N.
Proof.
  intros HA HB HD HN. apply Qlt_le_trans with (A / B * B).
  - apply Qmult_lt_l; [|exact HD].
    apply Qlt_shift_div_l; [exact HB|]. rewrite Qmult_0_l. exact HA.
  - setoid_replace (A / B * B) with A; [exact HN|].
    field. intros E. rewrite E in HB. discriminate HB.
Qed.

Lemma lt_div_mul A B D N :
  0 < A -> 0 < B -> B <= D -> N < A -> N < A / B * D.
Proof.
  intros HA HB HD HN. apply Qlt_le_trans with (A / B * B).
  - setoid_replace (A / B * B) with A; [exact HN|].
    field. intros E. rewrite E in HB. discriminate HB.
  - apply Qmult_le_l; [|exact HD].
    apply Qlt_shift_div_l; [exact HB|]. rewrite Qmult_0_l. exact HA.
Qed.

(** [floor_log2 x] is the exponent of the binade of [x]. *)
Lemma floor_log2_spec x :
  0 < x -> 2 ^ floor_log2 x <= x /\ x < 2 ^ (floor_log2 x + 1).
Proof.
  intros Hx. destruct x as [n d]. unfold floor_log2. cbn [Qnum Qden].
  assert (Hn : (0 < n)%Z).
  { unfold Qlt in Hx. simpl in Hx. lia. }
  set (a := Z.log2 n). set (b := Z.log2 (Z.pos d)).
  destruct (log2_bounds_Q Hn) as [La Ua]. fold a in La, Ua.
  destruct (log2_bounds_Q (Pos2Z.is_pos d)) as [Lb Ub].
  fold b in Lb, Ub.
  assert (Ex : n # d == inject_Z n / inject_Z (Z.pos d)) by apply Qmake_Qdiv.
  assert (Dpos : 0 < inject_Z (Z.pos d)) by reflexivity.
  assert (Low : 2 ^ (a - b - 1) < n # d).
  { rewrite Ex. apply Qlt_shift_div_l; [exact Dpos|].
    replace (a - b - 1)%Z with (a - (b + 1))%Z by lia.
    rewrite two_pow_sub.
    apply div_mul_lt; auto using two_pow_pos. }
  assert (Up : n # d < 2 ^ (a - b + 1)).
  { rewrite Ex. apply Qlt_shift_div_r; [exact Dpos|].
    replace (a - b + 1)%Z with (a + 1 - b)%Z by lia.
    rewrite two_pow_sub.
    apply lt_div_mul; auto using two_pow_pos. }
  destruct (Qle_bool (2 ^ (a - b)) (n # d)) eqn:T.
  - apply Qle_bool_iff in T. split; [exact T | exact Up].
  - split.
    + apply Qlt_le_weak. exact Low.
    + replace (a - b - 1 + 1)%Z with (a - b)%Z by lia.
      apply Qnot_le_lt. intros H. apply Qle_bool_iff in H. congruence.
Qed.

Lemma round_half_even_near x :
  inject_Z (round_half_even x) - x <= 1 # 2 /\
  x - inject_Z (round_half_even x) <= 1 # 2.
Proof.
  unfold round_half_even.
  pose proof (Qfloor_le x) as L. pose proof (Qlt_floor x) as U.
  rewrite inject_Z_plus in U. change (inject_Z 1) with 1 in U.
  assert (S : inject_Z (Qfloor x + 1) == inject_Z (Qfloor x) + 1)
    by (rewrite inject_Z_plus; reflexivity).
  destruct (Qcompare_spec (x - inject_Z (Qfloor x)) (1 # 2)) as [E|E|E].
  - destruct (Z.even (Qfloor x)); rewrite ?S; split; lra.
  - split; lra.
  - rewrite S. split; lra.
Qed.

(** Rounding to a double moves a number by at most half a unit in its
    last place, [2 ^ -53] of the number. *)
Lemma round64_pos_error x :
  0 < x ->
  round64_pos x - x <= x * (1 # 2 ^ 53) /\
  x - round64_pos x <= x * (1 # 2 ^ 53).
Proof.
  intros Hx. unfold round64_pos.
  destruct (floor_log2_spec Hx) as [L _].
  set (e := (floor_log2 x - 52)%Z).
  assert (Le : 2 ^ e * 2 ^ 52 <= x).
  { rewrite <- Qpower_plus by discriminate.
    replace (e + 52)%Z with (floor_log2 x) by (unfold e; lia). exact L. }
  pose proof (two_pow_pos e) as Pe.
  destruct (round_half_even_near (x / 2 ^ e)) as [A B].
  set (m := inject_Z (round_half_even (x / 2 ^ e))) in *.
  assert (Ex : x == x / 2 ^ e * 2 ^ e).
  { field. intros E. rewrite E in Pe. discriminate Pe. }
  set (y := x / 2 ^ e) in *. set (u := 2 ^ e) in *.
  change (2 ^ 52) with (4503599627370496 # 1) in Le.
  change (1 # 2 ^ 53) with (1 # 9007199254740992).
  assert (A' : (m - y) * u <= (1 # 2) * u) by (apply Qmult_le_compat_r; lra).
  assert (B' : (y - m) * u <= (1 # 2) * u) by (apply Qmult_le_compat_r; lra).
  split; lra.
Qed.

Lemma round64_of_pos x : 0 < x -> round64 x = round64_pos x.
Proof.
  intros H. unfold round64. apply Qgt_alt in H. rewrite H. reflexivity.
Qed.

Lemma round64_of_zero x : x == 0 -> round64 x = 0.
Proof.
  intros H. unfold round64. apply Qeq_alt in H. rewrite H. reflexivity.
Qed.

(** [Math.round] of a number within [1/(4t)] of [100c/t] is an integer
    nearest to [100c/t]. *)
Lemma nearest_percent (c t p : Z) (x : Q) :
  (0 < t)%Z ->
  inject_Z t * x - (1 # 4) <= inject_Z (100 * c) ->
  inject_Z (100 * c) <= inject_Z t * x + (1 # 4) ->
  inject_Z p <= x + (1 # 2) ->
  x + (1 # 2) < inject_Z p + 1 ->
  (2 * Z.abs (100 * c - t * p) <= t)%Z.
Proof.
  intros Ht L U Pl Pu.
  assert (HT : 0 < inject_Z t) by (rewrite Zlt_Qlt in Ht; exact Ht).
  assert (A : inject_Z t * inject_Z p <= inject_Z t * (x + (1 # 2)))
    by (apply Qmult_le_l; assumption).
  assert (B : inject_Z t * (x + (1 # 2)) < inject_Z t * (inject_Z p + 1))
    by (apply Qmult_lt_l; assumption).
  assert (E : inject_Z (t * p) == inject_Z t * inject_Z p)
    by (rewrite inject_Z_mult; reflexivity).
  assert (Lo : inject_Z (2 * (t * p) - 200 * c - t) < inject_Z 1).
  { unfold Zminus. rewrite !inject_Z_plus, !inject_Z_opp, !inject_Z_mult.
    rewrite inject_Z_mult in L, U.
    change (inject_Z 2) with 2. change (inject_Z 200) with 200.
    change (inject_Z 100) with 100 in *. change (inject_Z 1) with 1. lra. }
  assert (Hi : inject_Z (200 * c - 2 * (t * p) - t) < inject_Z 1).
  { unfold Zminus. rewrite !inject_Z_plus, !inject_Z_opp, !inject_Z_mult.
    rewrite inject_Z_mult in L, U.
    change (inject_Z 2) with 2. change (inject_Z 200) with 200.
    change (inject_Z 100) with 100 in *. change (inject_Z 1) with 1. lra. }
  rewrite <- Zlt_Qlt in Lo, Hi. lia.
Qed.

(** The percentage computed on doubles, for [c] out of [t]. *)
Lemma percent_nearest (c t : nat) :
  (0 < t)%nat -> (c <= t)%nat -> (Z.of_nat t < 2 ^ 32)%Z ->
  let p := Math_round (fmul (fdiv (num_of_nat c) (num_of_nat t)) 100) in
  (2 * Z.abs (100 * Z.of_nat c - Z.of_nat t * p) <= Z.of_nat t)%Z.
Proof.
  intros Ht Hc Hb. cbv zeta. unfold fmul, fdiv, num_of_nat.
  set (C := inject_Z (Z.of_nat c)). set (T := inject_Z (Z.of_nat t)).
  assert (HT : 0 < T).
  { unfold T. change 0 with (inject_Z 0). rewrite <- Zlt_Qlt. lia. }
  assert (HTn : ~ T == 0) by (intros E; rewrite E in HT; discriminate HT).
  assert (HC : C <= 4294967296).
  { unfold C. change 4294967296 with (inject_Z (2 ^ 32)).
    rewrite <- Zle_Qle. lia. }
  assert (Tx : T * (C / T) == C) by (field; exact HTn).
  destruct c as [|c'].
  - assert (Z0 : C / T == 0) by (unfold C; simpl; field; exact HTn).
    rewrite (round64_of_zero Z0).
    rewrite (round64_of_zero (x := 0 * 100)) by reflexivity.
    change (Math_round 0) with 0%Z. lia.
  - assert (HC0 : 0 < C).
    { unfold C. change 0 with (inject_Z 0). rewrite <- Zlt_Qlt. lia. }
    assert (Hx : 0 < C / T).
    { apply Qlt_shift_div_l; [exact HT|]. rewrite Qmult_0_l. exact HC0. }
    rewrite (round64_of_pos Hx).
    destruct (round64_pos_error Hx) as [E1 E1'].
    set (x := C / T) in *. set (x1 := round64_pos x) in *.
    change (1 # 2 ^ 53) with (1 # 9007199254740992) in E1, E1'.
    assert (Hx1 : 0 < x1 * 100) by lra.
    rewrite (round64_of_pos Hx1).
    destruct (round64_pos_error Hx1) as [E2 E2'].
    set (x2 := round64_pos (x1 * 100)) in *.
    change (1 # 2 ^ 53) with (1 # 9007199254740992) in E2, E2'.
    assert (D1 : x2 - 100 * x <= (300 # 9007199254740992) * x) by lra.
    assert (D2 : 100 * x - x2 <= (300 # 9007199254740992) * x) by lra.
    apply (Qmult_le_l _ _ T HT) in D1, D2.
    apply nearest_percent with (x := x2).
    + lia.
    + rewrite inject_Z_mult. fold C T. change (inject_Z 100) with 100.
      lra.
    + rewrite inject_Z_mult. fold C T. change (inject_Z 100) with 100.
      lra.
    + apply Qfloor_le.
    + pose proof (Qlt_floor (x2 + (1 # 2))) as U.
      rewrite inject_Z_plus in U. exact U.
Qed.

End Rounding.

(** ** Sorting and the blocks of a date *)

Lemma insert_by_order_perm x l : Permutation (insert_by_order x l) (x :: l).
Proof.
  induction l as [|y l IH]; simpl; [apply Permutation_refl|].
  destruct (order x <=? order y)%Z; [apply Permutation_refl|].
  apply perm_trans with (y :: x :: l); [|apply perm_swap].
  apply perm_skip. exact IH.
Qed.

Lemma insert_by_order_sorted x l :
  Sorted order_le l -> Sorted order_le (insert_by_order x l).
Proof.
  induction 1 as [|y l S IH H]; simpl.
  - repeat constructor.
  - destruct (order x <=? order y)%Z eqn:E.
    + apply Z.leb_le in E. repeat constructor; assumption.
    + apply Z.leb_gt in E. constructor; [exact IH|].
      destruct H as [|z l H]; simpl.
      * constructor. unfold order_le. lia.
      * destruct (order x <=? order z)%Z; constructor;
          unfold order_le in *; lia.
Qed.

(** The sorted array is in ascending [order] and holds the blocks it was
    given. *)
Lemma sort_by_order_sorted l : Sorted order_le (sort_by_order l).
Proof.
  induction l as [|x l IH]; simpl; [constructor|].
  apply insert_by_order_sorted. exact IH.
Qed.

Lemma sort_by_order_perm l : Permutation (sort_by_order l) l.
Proof.
  induction l as [|x l IH]; simpl; [apply perm_nil|].
  apply perm_trans with (x :: sort_by_order l).
  - apply insert_by_order_perm.
  - apply perm_skip. exact IH.
Qed.

Lemma Permutation_filter_length A (p : A -> bool) l l' :
  Permutation l l' -> length (filter p l) = length (filter p l').
Proof.
  induction 1 as [|x l l' _ IH|x y l|l l' l'' _ IH1 _ IH2]; simpl.
  - reflexivity.
  - destruct (p x); simpl; rewrite IH; reflexivity.
  - destruct (p x), (p y); reflexivity.
  - rewrite IH1; exact IH2.
Qed.

Lemma todaysBlocks_length daysAgo st :
  length (todaysBlocks daysAgo st) =
  length (on_date (today daysAgo) (blocks st)).
Proof.
  unfold todaysBlocks, on_date. apply Permutation_length.
  apply sort_by_order_perm.
Qed.

Lemma on_date_app d l l' : on_date d (l ++ l') = on_date d l ++ on_date d l'.
Proof. apply filter_app. Qed.

Lemma seq_snoc n : seq 0 (S n) = seq 0 n ++ [n].
Proof. rewrite seq_S. reflexivity. Qed.

(** Appending a block of date [d] whose [order] is the number of blocks
    of that date keeps the store dense. *)
Lemma dense_append bs b :
  order b = Z.of_nat (length (on_date (date b) bs)) ->
  dense bs -> dense (bs ++ [b]).
Proof.
  intros Ho H d. unfold dense_on. rewrite on_date_app.
  unfold on_date at 2 4. simpl filter.
  destruct (str_eqb (date b) d) eqn:E.
  - apply str_eqb_eq in E. subst d.
    rewrite length_app, map_app. simpl length. rewrite Nat.add_1_r.
    rewrite seq_snoc, map_app. apply Permutation_app; [apply H|].
    simpl. rewrite Ho. apply Permutation_refl.
  - rewrite !app_nil_r. apply H.
Qed.

Lemma addBlock_dense daysAgo now st :
  dense (blocks st) -> dense (blocks (addBlock daysAgo now st)).
Proof.
  intros H. unfold addBlock.
  destruct (negb (truthy (trim (newBlock st)))); [exact H|].
  simpl blocks. apply dense_append; [|exact H].
  simpl. rewrite todaysBlocks_length. reflexivity.
Qed.

(** ** Adding a block *)

(** A title with a character that is not white space is added: the new
    block goes last, dated today, not completed, its [order] the number of
    today's blocks. *)
Lemma addBlock_appends daysAgo now st c :
  In c (newBlock st) -> isWhiteSpace c = false ->
  blocks (addBlock daysAgo now st) =
  blocks st ++
    [ mkBlock (inject_Z now) (newBlock st) false (form_category st)
        (today daysAgo) (form_isRecurring st)
        (Z.of_nat (length (todaysBlocks daysAgo st))) ].
Proof.
  intros Hin Hc. unfold addBlock.
  pose proof (trim_keeps _ _ Hin Hc) as Ht.
  destruct (trim (newBlock st)); [contradiction|]. reflexivity.
Qed.

(** C9. [addBlock] with an empty title, or one made of white space only,
    returns before any update: the state, and with it the store, is the
    one it was called on. *)
Theorem addBlock_blank_title_rejected daysAgo now st :
  Forall (fun c => isWhiteSpace c = true) (newBlock st) ->
  addBlock daysAgo now st = st.
Proof.
  intros H. unfold addBlock. rewrite (trim_blank H). reflexivity.
Qed.

Lemma addBlock_blank_title_rejected_witness :
  let st := mkState [block 1 "Run" false "2024-01-02" false 0]
                    (js "  ") Health true in
  Forall (fun c => isWhiteSpace c = true) (newBlock st) /\
  addBlock jan2 1704153600000 st = st.
Proof.
  intros st.
  assert (H : Forall (fun c => isWhiteSpace c = true) (newBlock st))
    by (repeat constructor).
  split; [exact H | exact (addBlock_blank_title_rejected jan2 _ st H)].
Defined.

(** ** Deleting a block *)

Lemma filter_removes_only i l :
  removes_only i l (filter (fun b => negb (num_eqb (id b) i)) l).
Proof.
  induction l as [|b l IH]; simpl; [constructor|].
  destruct (num_eqb (id b) i) eqn:E; simpl.
  - apply removes_drop; [apply num_eqb_eq; exact E | exact IH].
  - apply removes_keep; [|exact IH].
    intros H. apply num_eqb_eq in H. congruence.
Qed.

Lemma filter_absent i l :
  (forall b, In b l -> ~ Qeq (id b) i) ->
  filter (fun b => negb (num_eqb (id b) i)) l = l.
Proof.
  induction l as [|b l IH]; simpl; intros H; [reflexivity|].
  destruct (num_eqb (id b) i) eqn:E; simpl.
  - exfalso. apply (H b); [left; reflexivity | apply num_eqb_eq; exact E].
  - f_equal. apply IH. intros b' Hb'. apply H. right; exact Hb'.
Qed.

(** C10. [deleteBlock i] drops exactly the blocks whose id is [i]; the
    blocks that stay are the ones of the store, in their place and with
    every field, [order] included, as before; the other cells of the state
    are not touched; and when no block has id [i] the state is
    unchanged. *)
Theorem deleteBlock_removes_only i st :
  let st' := deleteBlock i st in
  removes_only i (blocks st) (blocks st') /\
  (forall d, map order (on_date d (blocks st')) =
             map order (filter (fun b => negb (num_eqb (id b) i))
                               (on_date d (blocks st)))) /\
  newBlock st' = newBlock st /\
  form_category st' = form_category st /\
  form_isRecurring st' = form_isRecurring st /\
  ((forall b, In b (blocks st) -> ~ Qeq (id b) i) -> st' = st).
Proof.
  cbv zeta. unfold deleteBlock, setBlocks; simpl. repeat split.
  - apply filter_removes_only.
  - intros d. unfold on_date. f_equal.
    induction (blocks st) as [|b l IH]; simpl; [reflexivity|].
    destruct (num_eqb (id b) i) eqn:Ei, (str_eqb (date b) d) eqn:E; simpl;
      rewrite ?Ei, ?E, ?IH; reflexivity.
  - intros H. rewrite (filter_absent _ H). destruct st; reflexivity.
Qed.

Lemma deleteBlock_removes_only_witness :
  let st := store [ block 1 "Run" true "2024-01-02" false 0;
                    block 2 "Read" false "2024-01-02" false 1 ] in
  (forall b, In b (blocks st) -> ~ Qeq (id b) (inject_Z 7)) /\
  deleteBlock (inject_Z 7) st = st.
Proof.
  intros st.
  assert (H : forall b, In b (blocks st) -> ~ Qeq (id b) (inject_Z 7)).
  { intros b [<-|[<-|[]]]; simpl; intros E; discriminate E. }
  split; [exact H|].
  exact (proj2 (proj2 (proj2 (proj2 (proj2
           (deleteBlock_removes_only (inject_Z 7) st))))) H).
Defined.

(** ** Recurring blocks *)

Lemma mapi_from_length A B (f : A -> nat -> B) l i :
  length (mapi_from f l i) = length l.
Proof.
  revert i; induction l as [|x l IH]; intros i; simpl; [|rewrite IH];
    reflexivity.
Qed.

Lemma mapi_from_Forall A B (f : A -> nat -> B) (P : B -> Prop) l i :
  (forall x k, In x l -> P (f x k)) -> Forall P (mapi_from f l i).
Proof.
  revert i; induction l as [|x l IH]; intros i H; simpl; constructor.
  - apply H; left; reflexivity.
  - apply IH. intros y k Hy. apply H; right; exact Hy.
Qed.

Lemma filter_all A (p : A -> bool) l :
  Forall (fun x => p x = true) l -> filter p l = l.
Proof.
  induction 1 as [|x l Hx _ IH]; simpl; [|rewrite Hx, IH]; reflexivity.
Qed.

Lemma filter_none A (p : A -> bool) l :
  existsb p l = false -> filter p l = [].
Proof.
  induction l as [|x l IH]; simpl; [reflexivity|].
  destruct (p x); simpl; [discriminate | exact IH].
Qed.

(** Every generated block is recurring and dated today. *)
Lemma generated_recurring_today daysAgo fresh st :
  Forall (fun b => isRecurring b && str_eqb (date b) (today daysAgo) = true)
         (generated daysAgo fresh st).
Proof.
  unfold generated, mapi. apply mapi_from_Forall.
  intros b k Hb. apply filter_In in Hb. destruct Hb as [_ Hb].
  apply andb_true_iff in Hb. destruct Hb as [Hr _]. simpl.
  rewrite Hr, str_eqb_refl. reflexivity.
Qed.

(** Once the store holds a recurring block dated today, the pass does
    nothing. *)
Lemma recurrence_short_circuit daysAgo fresh st :
  existsToday daysAgo st = true -> recurrence daysAgo fresh st = st.
Proof. intros H. unfold recurrence. rewrite H. reflexivity. Qed.

Lemma recurrence_satisfied daysAgo fresh st :
  existsToday daysAgo st = false ->
  generated daysAgo fresh st <> [] ->
  existsToday daysAgo (recurrence daysAgo fresh st) = true.
Proof.
  intros He Hg. unfold recurrence. rewrite He.
  destruct (generated daysAgo fresh st) as [|g gs] eqn:G; [congruence|].
  simpl length. simpl Nat.eqb. cbv iota.
  unfold existsToday, setBlocks; simpl blocks.
  rewrite existsb_app. apply orb_true_iff. right.
  pose proof (generated_recurring_today daysAgo fresh st) as F.
  rewrite G in F. inversion F as [|? ? Hg0 _]; subst.
  simpl. rewrite Hg0. reflexivity.
Qed.

Lemma generated_length daysAgo fresh st :
  length (generated daysAgo fresh st) = length (templates daysAgo st).
Proof. unfold generated, mapi. apply mapi_from_length. Qed.

(** C3. With a recurring block dated today in the store the pass leaves
    the state as it is; a second pass, whatever identifiers it would draw,
    changes nothing after a first one; and when the first pass ran on a
    store without such a block, the recurring blocks dated today after both
    passes are the blocks the first pass generated, one for each template
    it found. *)
Theorem recurrence_idempotent daysAgo fresh1 fresh2 st :
  (existsToday daysAgo st = true -> recurrence daysAgo fresh1 st = st) /\
  recurrence daysAgo fresh2 (recurrence daysAgo fresh1 st) =
  recurrence daysAgo fresh1 st /\
  (existsToday daysAgo st = false ->
   filter (fun b => isRecurring b && str_eqb (date b) (today daysAgo))
          (blocks (recurrence daysAgo fresh2 (recurrence daysAgo fresh1 st)))
   = generated daysAgo fresh1 st /\
   length (generated daysAgo fresh1 st) = length (templates daysAgo st)).
Proof.
  assert (Twice : recurrence daysAgo fresh2 (recurrence daysAgo fresh1 st) =
                  recurrence daysAgo fresh1 st).
  { destruct (existsToday daysAgo st) eqn:He.
    - rewrite (recurrence_short_circuit _ fresh1 _ He).
      apply recurrence_short_circuit; exact He.
    - destruct (generated daysAgo fresh1 st) as [|g gs] eqn:G.
      + assert (R1 : recurrence daysAgo fresh1 st = st).
        { unfold recurrence. rewrite He, G. reflexivity. }
        rewrite R1. unfold recurrence. rewrite He.
        rewrite generated_length. rewrite <- (generated_length _ fresh1).
        rewrite G. reflexivity.
      + apply recurrence_short_circuit. apply recurrence_satisfied.
        * exact He.
        * rewrite G; discriminate. }
  split; [apply recurrence_short_circuit|]. split; [exact Twice|].
  intros He. split; [|apply generated_length].
  rewrite Twice. unfold recurrence. rewrite He.
  destruct (length (generated daysAgo fresh1 st) =? 0)%nat eqn:L.
  - apply Nat.eqb_eq in L.
    destruct (generated daysAgo fresh1 st); [|discriminate].
    apply filter_none. exact He.
  - unfold setBlocks; simpl blocks. rewrite filter_app.
    rewrite (filter_none _ _ He). simpl.
    apply filter_all. apply generated_recurring_today.
Qed.

Lemma recurrence_idempotent_witness :
  let seen := store [ block 1 "Run" true "2024-01-01" true 0;
                      block 2 "Run" false "2024-01-02" true 0 ] in
  let unseen := store [ block 1 "Run" true "2024-01-01" true 0 ] in
  let fresh1 := fun k => (1704153600000 + Z.of_nat k # 1)%Q in
  let fresh2 := fun k => (1704153660000 + Z.of_nat k # 1)%Q in
  (existsToday jan2 seen = true /\ recurrence jan2 fresh1 seen = seen) /\
  (existsToday jan2 unseen = false /\
   blocks (recurrence jan2 fresh2 (recurrence jan2 fresh1 unseen)) =
   [ block 1 "Run" true "2024-01-01" true 0;
     block 1704153600000 "Run" false "2024-01-02" true 0 ]).
Proof.
  intros seen unseen fresh1 fresh2.
  assert (H : existsToday jan2 seen = true) by reflexivity.
  assert (H' : existsToday jan2 unseen = false) by reflexivity.
  split; split; try assumption.
  - exact (proj1 (recurrence_idempotent jan2 fresh1 fresh2 seen) H).
  - rewrite (proj1 (proj2 (recurrence_idempotent jan2 fresh1 fresh2 unseen))).
    reflexivity.
Defined.

(** ** The streak *)

Lemma streak_loop_spec daysAgo bs n i s :
  exists k,
    streak_loop daysAgo bs n i s = s + k /\ k <= n /\
    (forall j, j < k -> day_counts daysAgo bs (i + j) = true) /\
    (k = n \/ day_counts daysAgo bs (i + k) = false).
Proof.
  revert i s; induction n as [|n IH]; intros i s; simpl.
  - exists 0. repeat split; auto with arith. intros j Hj; lia.
  - destruct (day_counts daysAgo bs i) eqn:D.
    + destruct (IH (S i) (S s)) as (k & E & Hk & Hall & Hstop).
      exists (S k). repeat split; [lia | lia | |].
      * intros [|j] Hj; [rewrite Nat.add_0_r; exact D|].
        replace (i + S j) with (S i + j) by lia. apply Hall; lia.
      * destruct Hstop as [->|Hstop]; [left; reflexivity|right].
        replace (i + S k) with (S i + k) by lia. exact Hstop.
    + exists 0. repeat split; [lia | lia | intros j Hj; lia |].
      right. rewrite Nat.add_0_r. exact D.
Qed.

(** The scenario of the specification: completed blocks today, yesterday
    and the day before, none earlier. *)
Example streak_three_days :
  streak jan2 [ block 1 "Run" true "2024-01-02" false 0;
                block 2 "Run" true "2024-01-01" false 0;
                block 3 "Run" true "2023-12-31" false 0;
                block 4 "Run" true "2023-12-29" false 0 ] = 3.
Proof. reflexivity. Qed.

(** ** The weekly chart *)

Lemma completed_on_none d bs :
  (forall b, In b bs -> date b <> d) -> completed_on d bs = 0.
Proof.
  intros H. unfold completed_on. rewrite filter_none; [reflexivity|].
  apply not_true_is_false. intros E. apply existsb_exists in E.
  destruct E as (b & Hb & E). apply andb_true_iff in E.
  destruct E as [E _]. apply str_eqb_eq in E. exact (H b Hb E).
Qed.

Example weeklyData_labels :
  weeklyData jan2
    (store [ block 1 "Run" true "2024-01-02" false 0;
             block 2 "Read" true "2024-01-02" false 1;
             block 3 "Walk" false "2024-01-02" false 2;
             block 4 "Run" true "2023-12-28" false 0 ]) =
  [ mkDayCount (js "12-27") 0; mkDayCount (js "12-28") 1;
    mkDayCount (js "12-29") 0; mkDayCount (js "12-30") 0;
    mkDayCount (js "12-31") 0; mkDayCount (js "01-01") 0;
    mkDayCount (js "01-02") 2 ].
Proof. reflexivity. Qed.

(** ** Reordering *)

Lemma in_firstn A n (l : list A) x : In x (firstn n l) -> In x l.
Proof.
  intros H. rewrite <- (firstn_skipn n l). apply in_or_app. left; exact H.
Qed.

Lemma in_skipn A n (l : list A) x : In x (skipn n l) -> In x l.
Proof.
  intros H. rewrite <- (firstn_skipn n l). apply in_or_app. right; exact H.
Qed.

Lemma splice_remove1_in A start (l : list A) x :
  In x (fst (splice_remove1 start l)) \/ In x (snd (splice_remove1 start l))
  -> In x l.
Proof.
  unfold splice_remove1; cbn [fst snd]. intros [H|H].
  - apply in_firstn in H. apply in_skipn in H. exact H.
  - apply in_app_or in H. destruct H as [H|H].
    + apply in_firstn in H. exact H.
    + apply in_skipn in H. exact H.
Qed.

Lemma splice_insert_in A start (m : A) l x :
  In x (splice_insert start m l) -> x = m \/ In x l.
Proof.
  unfold splice_insert. intros H. apply in_app_or in H.
  destruct H as [H|[H|H]].
  - right. apply in_firstn in H. exact H.
  - left. symmetry. exact H.
  - right. apply in_skipn in H. exact H.
Qed.

Lemma reindexed_orders l i :
  map order (mapi_from (fun b k => with_order (Z.of_nat k) b) l i) =
  map Z.of_nat (seq i (length l)).
Proof.
  revert i; induction l as [|b l IH]; intros i; simpl; [reflexivity|].
  rewrite IH. reflexivity.
Qed.

Lemma reindexed_dates l i b :
  In b (mapi_from (fun b k => with_order (Z.of_nat k) b) l i) ->
  exists b', In b' l /\ date b = date b'.
Proof.
  revert i; induction l as [|x l IH]; intros i; simpl; [tauto|].
  intros [<-|H].
  - exists x. split; [left|]; reflexivity.
  - destruct (IH _ H) as (b' & Hb' & E). exists b'. split; [right|]; assumption.
Qed.

Lemma on_date_all d l :
  (forall b, In b l -> date b = d) -> on_date d l = l.
Proof.
  intros H. apply filter_all. apply Forall_forall. intros b Hb.
  apply str_eqb_eq. apply H. exact Hb.
Qed.

Lemma on_date_nil d l :
  (forall b, In b l -> date b <> d) -> on_date d l = [].
Proof.
  intros H. apply filter_none. apply not_true_is_false. intros E.
  apply existsb_exists in E. destruct E as (b & Hb & E).
  apply str_eqb_eq in E. exact (H b Hb E).
Qed.

Lemma on_date_other d d' l :
  d <> d' ->
  on_date d (filter (fun b => negb (str_eqb (date b) d')) l) = on_date d l.
Proof.
  intros N. unfold on_date. induction l as [|b l IH]; simpl; [reflexivity|].
  destruct (str_eqb (date b) d') eqn:E'; simpl.
  - apply str_eqb_eq in E'.
    assert (E : str_eqb (date b) d = false)
      by (apply str_eqb_neq; congruence).
    rewrite E. exact IH.
  - rewrite IH. reflexivity.
Qed.

(** What [reorder] returns: today's blocks, renumbered from 0 in their
    new sequence, after the blocks of the other dates, which are as they
    were. *)
Lemma reorder_result daysAgo a o prev v :
  reorder daysAgo a o prev = Some v ->
  map order (on_date (today daysAgo) v) =
    map Z.of_nat (seq 0 (length (on_date (today daysAgo) v))) /\
  (forall d, d <> today daysAgo -> on_date d v = on_date d prev).
Proof.
  unfold reorder.
  set (items := sort_by_order
                  (filter (fun b => str_eqb (date b) (today daysAgo)) prev)).
  set (oldIndex := findIndex _ items). set (newIndex := findIndex _ items).
  assert (Items : forall b, In b items -> date b = today daysAgo).
  { intros b Hb. unfold items in Hb.
    apply (Permutation_in _ (sort_by_order_perm _)) in Hb.
    apply filter_In in Hb. apply str_eqb_eq. apply Hb. }
  pose proof (@splice_remove1_in _ oldIndex items) as Rem.
  destruct (splice_remove1 oldIndex items) as [removed rest].
  simpl in Rem. destruct removed as [|moved removed]; [discriminate|].
  intros E. injection E as <-.
  set (updated := mapi _ _).
  assert (Upd : forall b, In b updated -> date b = today daysAgo).
  { intros b Hb. apply reindexed_dates in Hb.
    destruct Hb as (b' & Hb' & ->). apply splice_insert_in in Hb'.
    apply Items. apply Rem. destruct Hb' as [->|Hb'].
    - left; left; reflexivity.
    - right; exact Hb'. }
  split.
  - rewrite on_date_app. rewrite on_date_nil, (on_date_all _ Upd).
    + simpl. unfold updated, mapi. rewrite mapi_from_length.
      apply reindexed_orders.
    + intros b Hb. apply filter_In in Hb. destruct Hb as [_ Hb].
      apply negb_true_iff in Hb. apply str_eqb_neq. exact Hb.
  - intros d N. rewrite on_date_app. rewrite (on_date_other _ N).
    assert (U0 : on_date d updated = []).
    { apply on_date_nil. intros b Hb. rewrite (Upd b Hb). congruence. }
    rewrite U0. apply app_nil_r.
Qed.

Lemma handleDragEnd_dense daysAgo event st st' :
  handleDragEnd daysAgo event st = Some st' ->
  dense (blocks st) -> dense (blocks st').
Proof.
  unfold handleDragEnd. destruct (over event) as [o|].
  - destruct (num_eqb (active event) o).
    + intros E; injection E as <-. auto.
    + destruct (reorder daysAgo (active event) o (blocks st)) as [v|] eqn:R;
        [|discriminate].
      intros E; injection E as <-. intros H d. simpl blocks.
      destruct (reorder_result _ _ _ _ R) as [T O]. unfold dense_on.
      destruct (str_eqb d (today daysAgo)) eqn:D.
      * apply str_eqb_eq in D. subst d. rewrite T. apply Permutation_refl.
      * apply str_eqb_neq in D. rewrite (O d D). apply H.
  - intros E; injection E as <-. auto.
Qed.

(** The two guards of [handleDragEnd]: a drop outside every block, and a
    drop of a block on itself, leave the state as it is. *)
Lemma handleDragEnd_guards daysAgo a st :
  handleDragEnd daysAgo (mkDragEnd a None) st = Some st /\
  (forall o, Qeq a o -> handleDragEnd daysAgo (mkDragEnd a (Some o)) st = Some st).
Proof.
  split; [reflexivity|]. intros o H. unfold handleDragEnd; simpl.
  apply num_eqb_eq in H. rewrite H. reflexivity.
Qed.

(** A drag of block 1 onto block 3: block 1 takes the place of block 3,
    the blocks between move up, and the blocks of the other dates come
    first in the array. *)
Example handleDragEnd_moves_block :
  handleDragEnd jan2 (mkDragEnd (inject_Z 1) (Some (inject_Z 3)))
    (store [ block 1 "Run" false "2024-01-02" false 0;
             block 9 "Plan" true "2024-01-01" false 0;
             block 2 "Read" false "2024-01-02" false 1;
             block 3 "Walk" false "2024-01-02" false 2 ]) =
  Some (store [ block 9 "Plan" true "2024-01-01" false 0;
                block 2 "Read" false "2024-01-02" false 0;
                block 3 "Walk" false "2024-01-02" false 1;
                block 1 "Run" false "2024-01-02" false 2 ]).
Proof. vm_compute. reflexivity. Qed.

(** C4. Today holds the blocks 1, 2, 3 in that order and no block has id
    99. Dragging the unknown id 99 onto block 1 takes the last block, 3,
    and puts it first; dragging block 1 onto the unknown id 99 puts block
    1 before the last block. Either way the store changes: [findIndex]
    answers [-1] and [splice] counts it from the end. *)
Theorem handleDragEnd_unknown_id_moves_a_block :
  let st := store [ block 1 "Run" false "2024-01-02" false 0;
                    block 2 "Read" false "2024-01-02" false 1;
                    block 3 "Walk" false "2024-01-02" false 2 ] in
  (forall b, In b (todaysBlocks jan2 st) -> ~ Qeq (id b) (inject_Z 99)) /\
  handleDragEnd jan2 (mkDragEnd (inject_Z 99) (Some (inject_Z 1))) st =
    Some (store [ block 3 "Walk" false "2024-01-02" false 0;
                  block 1 "Run" false "2024-01-02" false 1;
                  block 2 "Read" false "2024-01-02" false 2 ]) /\
  handleDragEnd jan2 (mkDragEnd (inject_Z 1) (Some (inject_Z 99))) st =
    Some (store [ block 2 "Read" false "2024-01-02" false 0;
                  block 1 "Run" false "2024-01-02" false 1;
                  block 3 "Walk" false "2024-01-02" false 2 ]) /\
  handleDragEnd jan2 (mkDragEnd (inject_Z 99) (Some (inject_Z 1))) st
    <> Some st /\
  handleDragEnd jan2 (mkDragEnd (inject_Z 1) (Some (inject_Z 99))) st
    <> Some st.
Proof.
  intros st. split; [|repeat split; try (vm_compute; reflexivity);
                      vm_compute; discriminate].
  vm_compute. intros b [<-|[<-|[<-|[]]]]; intros E; discriminate E.
Qed.

(** ** Loading the snapshot *)

(** C8, as the page has it. Without a stored text, or with the empty one,
    the load leaves the initial store in place, and a text that parses is
    installed; a stored text that [JSON.parse] rejects makes the load
    effect end with that exception, and no store is installed. *)
Theorem storage_load_outcomes parse s st :
  truthy s = true ->
  parse s = None ->
  storage_load parse (Some s) st = None /\
  storage_load parse None st = Some st /\
  storage_load parse (Some []) st = Some st /\
  (forall s' v, truthy s' = true -> parse s' = Some v ->
                storage_load parse (Some s') st = Some (setBlocks v st)).
Proof.
  intros Hs Hp. unfold storage_load. rewrite Hs, Hp. repeat split.
  intros s' v Hs' Hv. rewrite Hs', Hv. reflexivity.
Qed.

Lemma storage_load_outcomes_witness :
  let parse := fun s : jsstring =>
                 if str_eqb s (js "[]") then Some (@nil Block) else None in
  truthy (js "[{") = true /\ parse (js "[{") = None /\
  storage_load parse (Some (js "[{")) (store []) = None.
Proof.
  intros parse. split; [reflexivity|]. split; [reflexivity|].
  exact (proj1 (storage_load_outcomes parse (js "[{") (store [])
                  eq_refl eq_refl)).
Defined.

(** The stored text [[{] is not JSON: [JSON.parse] throws on it, and the
    load does not end with an empty store. *)
Lemma storage_load_corrupt_not_empty :
  ~ (forall parse s st,
       blocks st = [] ->
       parse s = None ->
       storage_load parse (Some s) st = Some st).
Proof.
  intros H.
  specialize (H (fun _ => None) (js "[{") (store []) eq_refl eq_refl).
  discriminate H.
Qed.

(** ** Generating today's recurring blocks *)

(** What a generated block takes from its template and what it is given:
    the [order] comes from the template. *)
Lemma regenerated_fields i d b :
  let g := regenerated i d b in
  id g = i /\ title g = title b /\ category g = category b /\
  isRecurring g = isRecurring b /\ completed g = false /\ date g = d /\
  order g = order b.
Proof. repeat split. Qed.

(** C2. Yesterday holds two blocks, of order 0 and 1, the second one
    recurring; today holds none. The pass generates one block for today
    with the identifier drawn, the title, category and flag of its
    template, not completed, and with the template's [order], 1, where
    appending to today's empty sequence gives 0. *)
Theorem recurrence_keeps_template_order :
  let st := store [ block 1 "Plan" true "2024-01-01" false 0;
                    block 2 "Run" true "2024-01-01" true 1 ] in
  let fresh := fun k =>
    Qmake (1704153600000 * 4096 + 1365 + Z.of_nat k) 4096 in
  dense (blocks st) /\
  length (on_date (today jan2) (blocks st)) = 0 /\
  blocks (recurrence jan2 fresh st) =
    blocks st ++
    [ mkBlock (fresh 0) (js "Run") false Work (js "2024-01-02") true 1 ] /\
  map order (on_date (today jan2) (blocks (recurrence jan2 fresh st)))
    = [1%Z] /\
  ~ dense_on (today jan2) (blocks (recurrence jan2 fresh st)).
Proof.
  intros st fresh. split; [|split; [|split; [|split]]].
  - intros d. unfold dense_on, on_date, st.
    cbn [filter store blocks block date].
    destruct (str_eqb _ d); cbn [map length seq order block];
      apply Permutation_refl.
  - vm_compute. reflexivity.
  - vm_compute. reflexivity.
  - vm_compute. reflexivity.
  - unfold dense_on.
    assert (E : on_date (today jan2) (blocks (recurrence jan2 fresh st)) =
                [ mkBlock (fresh 0) (js "Run") false Work (js "2024-01-02")
                    true 1 ]) by (vm_compute; reflexivity).
    rewrite E. cbn [map length seq order]. intros H.
    apply Permutation_length_1 in H. discriminate H.
Qed.

(** ** The order invariant and deletion *)

(** C1. Today holds three blocks, of order 0, 1 and 2: the store is
    dense. Deleting the first leaves the orders 1 and 2 on the two blocks
    that stay, which is not [0 .. n-1]. After the second is deleted too, a
    block added gets order 1, the number of today's blocks, and is listed
    before the block of order 2 that was there. *)
Theorem deleteBlock_breaks_density :
  let st := mkState [ block 1 "Run" false "2024-01-02" false 0;
                      block 2 "Read" false "2024-01-02" false 1;
                      block 3 "Walk" false "2024-01-02" false 2 ]
                    (js "Cook") Work false in
  let st1 := deleteBlock (inject_Z 1) st in
  let st2 := addBlock jan2 4 (deleteBlock (inject_Z 2) st1) in
  dense (blocks st) /\
  map order (on_date (today jan2) (blocks st1)) = [1%Z; 2%Z] /\
  ~ dense_on (today jan2) (blocks st1) /\
  todaysBlocks jan2 st2 =
    [ mkBlock (inject_Z 4) (js "Cook") false Work (js "2024-01-02") false 1;
      block 3 "Walk" false "2024-01-02" false 2 ] /\
  ~ dense_on (today jan2) (blocks st2).
Proof.
  intros st st1 st2. split; [|split; [|split; [|split]]].
  - intros d. unfold dense_on, on_date, st.
    cbn [filter store blocks block date].
    destruct (str_eqb _ d); cbn [map length seq order block];
      apply Permutation_refl.
  - vm_compute. reflexivity.
  - unfold dense_on.
    assert (E : on_date (today jan2) (blocks st1) =
                [ block 2 "Read" false "2024-01-02" false 1;
                  block 3 "Walk" false "2024-01-02" false 2 ])
      by (vm_compute; reflexivity).
    rewrite E. cbn [map length seq order block]. intros H.
    apply (Permutation_in 2%Z) in H; [|right; left; reflexivity].
    destruct H as [H|[H|[]]]; discriminate H.
  - vm_compute. reflexivity.
  - unfold dense_on.
    assert (E : map order (on_date (today jan2) (blocks st2)) = [2%Z; 1%Z])
      by (vm_compute; reflexivity).
    assert (L : length (on_date (today jan2) (blocks st2)) = 2)
      by (vm_compute; reflexivity).
    rewrite E, L. cbn [map seq]. intros H.
    apply (Permutation_in 2%Z) in H; [|left; reflexivity].
    destruct H as [H|[H|[]]]; discriminate H.
Qed.

(** ** Today's progress *)

Lemma progress_counts daysAgo st :
  let todays := on_date (today daysAgo) (blocks st) in
  progress daysAgo st =
  if (length todays =? 0)%nat then 0%Z
  else Math_round
         (fmul (fdiv (num_of_nat (length (filter completed todays)))
                     (num_of_nat (length todays)))
               100%Q).
Proof.
  cbv zeta. unfold progress. rewrite todaysBlocks_length.
  unfold todaysBlocks, on_date.
  rewrite (Permutation_filter_length completed (sort_by_order_perm _)).
  reflexivity.
Qed.

(** C7. Over the blocks dated today, [total] of them and [done] of them
    completed, [progress] is an integer nearest to [100 * done / total]:
    it is off by at most a half. It is 0 when there is no block today, and
    33 for one block completed out of three. (An array has fewer than
    [2 ^ 32] elements.) *)
Theorem progress_rounded_percentage daysAgo st :
  let todays := on_date (today daysAgo) (blocks st) in
  let total := length todays in
  let done := length (filter completed todays) in
  (Z.of_nat total < 2 ^ 32)%Z ->
  (2 * Z.abs (100 * Z.of_nat done - Z.of_nat total * progress daysAgo st)
   <= Z.of_nat total)%Z /\
  (total = 0 -> progress daysAgo st = 0%Z) /\
  (total = 3 -> done = 1 -> progress daysAgo st = 33%Z).
Proof.
  cbv zeta. intros Hb. rewrite progress_counts. cbv zeta.
  set (todays := on_date (today daysAgo) (blocks st)) in *.
  split; [|split].
  - pose proof (filter_length_le completed todays) as F.
    destruct (length todays) as [|n] eqn:L.
    + cbn [Nat.eqb]. lia.
    + rewrite <- L in *. replace (length todays =? 0)%nat with false
        by (symmetry; apply Nat.eqb_neq; lia).
      apply percent_nearest; [lia | apply filter_length_le | exact Hb].
  - intros ->. reflexivity.
  - intros -> ->. vm_compute. reflexivity.
Qed.

Lemma progress_rounded_percentage_witness :
  let st := store [ block 1 "Run" true "2024-01-02" false 0;
                    block 2 "Read" false "2024-01-02" false 1;
                    block 3 "Walk" false "2024-01-02" false 2;
                    block 4 "Run" true "2024-01-01" false 0 ] in
  (Z.of_nat (length (on_date (today jan2) (blocks st))) < 2 ^ 32)%Z /\
  progress jan2 st = 33%Z.
Proof.
  intros st.
  assert (H : (Z.of_nat (length (on_date (today jan2) (blocks st)))
               < 2 ^ 32)%Z) by (vm_compute; reflexivity).
  split; [exact H|].
  apply (proj2 (proj2 (progress_rounded_percentage jan2 st H)));
    vm_compute; reflexivity.
Defined.

(** At a tie the double decides: 23 of 40 is 57.5 percent, the product
    computed on doubles is just below it, and the progress shown is 57. *)
Example progress_tie_23_of_40 :
  Math_round (fmul (fdiv (num_of_nat 23) (num_of_nat 40)) 100%Q) = 57%Z /\
  Math_round (fmul (fdiv (num_of_nat 1) (num_of_nat 8)) 100%Q) = 13%Z.
Proof. split; vm_compute; reflexivity. Qed.

(** ** The order invariant without deletion *)

Lemma on_date_map_orders (f : Block -> Block) d l :
  (forall b, date (f b) = date b /\ order (f b) = order b) ->
  map order (on_date d (map f l)) = map order (on_date d l).
Proof.
  intros Hf. unfold on_date. induction l as [|b l IH]; simpl; [reflexivity|].
  destruct (Hf b) as [-> Ho].
  destruct (str_eqb (date b) d); simpl; rewrite IH, ?Ho; reflexivity.
Qed.

Lemma toggleBlock_dense i st :
  dense (blocks st) -> dense (blocks (toggleBlock i st)).
Proof.
  intros H d. unfold dense_on, toggleBlock, setBlocks; simpl blocks.
  set (f := fun b => if num_eqb (id b) i then with_toggled b else b).
  assert (E : map order (on_date d (map f (blocks st))) =
              map order (on_date d (blocks st))).
  { apply on_date_map_orders. intros b. unfold f.
    destruct (num_eqb (id b) i); split; reflexivity. }
  rewrite E. rewrite <- (length_map order), E, length_map. apply H.
Qed.

Lemma action_step_dense st st' :
  action_step st st' -> dense (blocks st) -> dense (blocks st').
Proof.
  intros S H. destruct S as [daysAgo now st|daysAgo event st st' E|i st|st t c r].
  - apply addBlock_dense; exact H.
  - exact (handleDragEnd_dense _ _ _ E H).
  - apply toggleBlock_dense; exact H.
  - exact H.
Qed.

(** Adding, reordering and toggling, in any sequence and across days, keep
    a dense store dense. *)
Lemma dense_without_delete st st' :
  reachable st st' -> dense (blocks st) -> dense (blocks st').
Proof.
  induction 1 as [st|st st' st'' _ IH S]; intros H; [exact H|].
  exact (action_step_dense S (IH H)).
Qed.

(** * Further properties of the actions and the metrics *)

(** ** Toggling a block *)

Lemma with_toggled_involutive b : with_toggled (with_toggled b) = b.
Proof.
  destruct b; unfold with_toggled; simpl. rewrite negb_involutive.
  reflexivity.
Qed.

(** [toggleBlock i] twice gives back the state it started from. *)
Theorem toggleBlock_involutive i st :
  toggleBlock i (toggleBlock i st) = st.
Proof.
  destruct st as [bs t c r]. unfold toggleBlock, setBlocks; simpl. f_equal.
  rewrite map_map. rewrite <- (map_id bs) at 2. apply map_ext. intros b.
  destruct (num_eqb (id b) i) eqn:E; simpl; rewrite E;
    [apply with_toggled_involutive | reflexivity].
Qed.

Lemma toggleBlock_absent i st :
  (forall b, In b (blocks st) -> ~ Qeq (id b) i) -> toggleBlock i st = st.
Proof.
  intros H. destruct st as [bs t c r]; unfold toggleBlock, setBlocks;
    simpl in *. f_equal.
  rewrite <- (map_id bs) at 2. apply map_ext_in. intros b Hb.
  destruct (num_eqb (id b) i) eqn:E; [|reflexivity].
  exfalso. apply (H b Hb). apply num_eqb_eq. exact E.
Qed.

(** [toggleBlock i] flips [completed] on the blocks whose id is [i] and on
    no other; it keeps the number and the sequence of the blocks, every
    other field of each, and the form; without a block of id [i] the
    state is unchanged. *)
Theorem toggleBlock_flips_only_completed i st :
  let st' := toggleBlock i st in
  map completed (blocks st') =
    map (fun b => xorb (completed b) (num_eqb (id b) i)) (blocks st) /\
  map id (blocks st') = map id (blocks st) /\
  map title (blocks st') = map title (blocks st) /\
  map category (blocks st') = map category (blocks st) /\
  map date (blocks st') = map date (blocks st) /\
  map isRecurring (blocks st') = map isRecurring (blocks st) /\
  map order (blocks st') = map order (blocks st) /\
  newBlock st' = newBlock st /\
  form_category st' = form_category st /\
  form_isRecurring st' = form_isRecurring st /\
  ((forall b, In b (blocks st) -> ~ Qeq (id b) i) -> st' = st).
Proof.
  cbv zeta. unfold toggleBlock, setBlocks; simpl.
  repeat split; try (rewrite map_map; apply map_ext; intros b;
                     destruct (num_eqb (id b) i); simpl;
                     rewrite ?xorb_true_r, ?xorb_false_r; reflexivity).
  apply toggleBlock_absent.
Qed.

Lemma toggleBlock_flips_only_completed_witness :
  let st := store [ block 1 "Run" true "2024-01-02" false 0;
                    block 2 "Read" false "2024-01-02" false 1 ] in
  (forall b, In b (blocks st) -> ~ Qeq (id b) (inject_Z 7)) /\
  toggleBlock (inject_Z 7) st = st.
Proof.
  intros st.
  assert (H : forall b, In b (blocks st) -> ~ Qeq (id b) (inject_Z 7)).
  { intros b [<-|[<-|[]]]; simpl; intros E; discriminate E. }
  split; [exact H|].
  exact (proj2 (proj2 (proj2 (proj2 (proj2 (proj2 (proj2 (proj2 (proj2 (proj2
           (toggleBlock_flips_only_completed (inject_Z 7) st)))))))))) H).
Defined.

(** ** Deleting again, and deleting what was added *)

Lemma filter_idem A (p : A -> bool) l : filter p (filter p l) = filter p l.
Proof.
  induction l as [|x l IH]; simpl; [reflexivity|].
  destruct (p x) eqn:E; simpl; rewrite ?E, IH; reflexivity.
Qed.

Lemma filter_comm A (p q : A -> bool) l :
  filter p (filter q l) = filter q (filter p l).
Proof.
  induction l as [|x l IH]; simpl; [reflexivity|].
  destruct (p x) eqn:P, (q x) eqn:Q; simpl; rewrite ?P, ?Q, IH; reflexivity.
Qed.

(** After [deleteBlock i] no block has id [i], so deleting or toggling [i]
    once more changes nothing; and two deletions give the same state in
    either order. *)
Theorem deleteBlock_settles i j st :
  let st' := deleteBlock i st in
  (forall b, In b (blocks st') -> ~ Qeq (id b) i) /\
  deleteBlock i st' = st' /\
  toggleBlock i st' = st' /\
  deleteBlock i (deleteBlock j st) = deleteBlock j (deleteBlock i st).
Proof.
  cbv zeta.
  assert (Gone : forall b, In b (blocks (deleteBlock i st)) -> ~ Qeq (id b) i).
  { unfold deleteBlock, setBlocks; simpl. intros b Hb E.
    apply filter_In in Hb. destruct Hb as [_ Hb].
    apply num_eqb_eq in E. rewrite E in Hb. discriminate Hb. }
  split; [exact Gone|]. split; [|split].
  - unfold deleteBlock, setBlocks; simpl. rewrite filter_idem. reflexivity.
  - apply toggleBlock_absent. exact Gone.
  - unfold deleteBlock, setBlocks; simpl. rewrite filter_comm. reflexivity.
Qed.

(** Deleting the id a block was just added with gives back the store as
    it was before, when no other block has that id. *)
Theorem addBlock_then_deleteBlock daysAgo now st :
  (forall b, In b (blocks st) -> ~ Qeq (id b) (inject_Z now)) ->
  blocks (deleteBlock (inject_Z now) (addBlock daysAgo now st)) = blocks st.
Proof.
  intros H. unfold addBlock.
  destruct (negb (truthy (trim (newBlock st)))).
  - unfold deleteBlock, setBlocks; simpl. apply filter_absent. exact H.
  - unfold deleteBlock, setBlocks, setIsRecurring, setNewBlock; simpl.
    rewrite filter_app, (filter_absent _ H). simpl.
    assert (E : num_eqb (inject_Z now) (inject_Z now) = true)
      by (apply num_eqb_eq; reflexivity).
    rewrite E. simpl. apply app_nil_r.
Qed.

Lemma addBlock_then_deleteBlock_witness :
  let st := mkState [ block 1 "Run" true "2024-01-02" false 0 ]
                    (js "Read") Skill true in
  (forall b, In b (blocks st) -> ~ Qeq (id b) (inject_Z 5)) /\
  blocks (deleteBlock (inject_Z 5) (addBlock jan2 5 st)) = blocks st.
Proof.
  intros st.
  assert (H : forall b, In b (blocks st) -> ~ Qeq (id b) (inject_Z 5)).
  { intros b [<-|[]]; simpl; intros E; discriminate E. }
  split; [exact H | exact (@addBlock_then_deleteBlock jan2 5 st H)].
Defined.

(** ** Where an added block is listed *)

Lemma insert_by_order_last x s b :
  (order x <= order b)%Z ->
  insert_by_order x (s ++ [b]) = insert_by_order x s ++ [b].
Proof.
  intros H. induction s as [|y s IH]; simpl.
  - apply Z.leb_le in H. rewrite H. reflexivity.
  - destruct (order x <=? order y)%Z; [reflexivity|]. rewrite IH. reflexivity.
Qed.

Lemma sort_by_order_last l b :
  (forall x, In x l -> (order x <= order b)%Z) ->
  sort_by_order (l ++ [b]) = sort_by_order l ++ [b].
Proof.
  induction l as [|x l IH]; intros H; simpl; [reflexivity|].
  rewrite IH by (intros y Hy; apply H; right; exact Hy).
  apply insert_by_order_last. apply H. left; reflexivity.
Qed.

Lemma dense_on_bound d bs b :
  dense_on d bs -> In b (on_date d bs) ->
  (0 <= order b < Z.of_nat (length (on_date d bs)))%Z.
Proof.
  intros D Hb. apply (in_map order) in Hb.
  apply (Permutation_in _ D) in Hb. apply in_map_iff in Hb.
  destruct Hb as (k & <- & Hk). apply in_seq in Hk. lia.
Qed.

(** With today's orders dense, a block added under a title that is not
    blank is listed last among today's blocks, after the ones that were
    there, in their sequence. It is stored with the title as typed, not
    completed, dated today, and the form is cleared: the title is emptied
    and the repeat box unticked, the category stays. *)
Theorem addBlock_listed_last daysAgo now st c :
  In c (newBlock st) -> isWhiteSpace c = false ->
  dense_on (today daysAgo) (blocks st) ->
  let b := mkBlock (inject_Z now) (newBlock st) false (form_category st)
             (today daysAgo) (form_isRecurring st)
             (Z.of_nat (length (on_date (today daysAgo) (blocks st)))) in
  let st' := addBlock daysAgo now st in
  blocks st' = blocks st ++ [b] /\
  todaysBlocks daysAgo st' = todaysBlocks daysAgo st ++ [b] /\
  newBlock st' = [] /\
  form_isRecurring st' = false /\
  form_category st' = form_category st.
Proof.
  intros Hin Hc D. cbv zeta.
  pose proof (@addBlock_appends daysAgo now st c Hin Hc) as A.
  rewrite todaysBlocks_length in A.
  split; [exact A|]. split.
  - unfold todaysBlocks at 1. rewrite A. rewrite filter_app. simpl.
    rewrite str_eqb_refl. apply sort_by_order_last.
    intros x Hx. pose proof (@dense_on_bound _ _ x D Hx) as B. simpl. lia.
  - unfold addBlock. pose proof (trim_keeps _ _ Hin Hc) as Ht.
    destruct (trim (newBlock st)); [contradiction|]. repeat split.
Qed.

Lemma addBlock_listed_last_witness :
  let st := mkState [ block 2 "Read" false "2024-01-02" false 1;
                      block 9 "Plan" true "2024-01-01" false 0;
                      block 1 "Run" true "2024-01-02" false 0 ]
                    (js " Walk ") Health true in
  In 87%N (newBlock st) /\ isWhiteSpace 87 = false /\
  dense_on (today jan2) (blocks st) /\
  todaysBlocks jan2 (addBlock jan2 3 st) =
    [ block 1 "Run" true "2024-01-02" false 0;
      block 2 "Read" false "2024-01-02" false 1;
      mkBlock (inject_Z 3) (js " Walk ") false Health (js "2024-01-02")
        true 2 ].
Proof.
  intros st.
  assert (Hin : In 87%N (newBlock st)) by (right; left; reflexivity).
  assert (Hc : isWhiteSpace 87 = false) by reflexivity.
  assert (D : dense_on (today jan2) (blocks st)).
  { unfold dense_on.
    assert (E : on_date (today jan2) (blocks st) =
                [ block 2 "Read" false "2024-01-02" false 1;
                  block 1 "Run" true "2024-01-02" false 0 ])
      by (vm_compute; reflexivity).
    rewrite E. cbn [map length seq order block]. apply perm_swap. }
  split; [exact Hin|]. split; [exact Hc|]. split; [exact D|].
  rewrite (proj1 (proj2 (@addBlock_listed_last jan2 3 st 87%N Hin Hc D))).
  vm_compute. reflexivity.
Defined.

(** ** What the metrics depend on *)

Lemma existsb_filter_length A (p : A -> bool) l :
  existsb p l = negb (length (filter p l) =? 0)%nat.
Proof.
  induction l as [|x l IH]; simpl; [reflexivity|].
  destruct (p x); simpl; [reflexivity | exact IH].
Qed.

Lemma day_counts_completed_on daysAgo bs i :
  day_counts daysAgo bs i = negb (completed_on (daysAgo i) bs =? 0)%nat.
Proof. apply existsb_filter_length. Qed.

Lemma filter_filter A (p q : A -> bool) l :
  filter p (filter q l) = filter (fun x => q x && p x) l.
Proof.
  induction l as [|x l IH]; simpl; [reflexivity|].
  destruct (q x); simpl; [destruct (p x)|]; rewrite IH; reflexivity.
Qed.

Lemma streak_loop_by_counts daysAgo bs bs' n i s :
  (forall d, completed_on d bs = completed_on d bs') ->
  streak_loop daysAgo bs n i s = streak_loop daysAgo bs' n i s.
Proof.
  intros H. revert i s; induction n as [|n IH]; intros i s; simpl;
    [reflexivity|].
  rewrite !day_counts_completed_on, H, IH. reflexivity.
Qed.

Lemma weeklyData_by_counts daysAgo st st' :
  (forall d, completed_on d (blocks st) = completed_on d (blocks st')) ->
  weeklyData daysAgo st = weeklyData daysAgo st'.
Proof.
  intros H. unfold weeklyData. apply map_ext. intros d.
  f_equal. apply H.
Qed.

Lemma progress_by_counts daysAgo st st' :
  length (on_date (today daysAgo) (blocks st)) =
    length (on_date (today daysAgo) (blocks st')) ->
  (forall d, completed_on d (blocks st) = completed_on d (blocks st')) ->
  progress daysAgo st = progress daysAgo st'.
Proof.
  intros L H. rewrite !progress_counts. cbv zeta. rewrite L.
  unfold on_date. rewrite !filter_filter.
  change (length (filter (fun x => str_eqb (date x) (today daysAgo)
                                   && completed x) (blocks st)))
    with (completed_on (today daysAgo) (blocks st)).
  change (length (filter (fun x => str_eqb (date x) (today daysAgo)
                                   && completed x) (blocks st')))
    with (completed_on (today daysAgo) (blocks st')).
  rewrite H. reflexivity.
Qed.

Lemma completed_on_app d l l' :
  completed_on d (l ++ l') = completed_on d l + completed_on d l'.
Proof. unfold completed_on. rewrite filter_app, length_app. reflexivity. Qed.

(** Adding a block changes neither the streak nor any bar of the weekly
    chart: the block that goes in is not completed. *)
Theorem addBlock_keeps_streak_and_chart daysAgo clock now st :
  streak clock (blocks (addBlock daysAgo now st)) = streak clock (blocks st) /\
  weeklyData clock (addBlock daysAgo now st) = weeklyData clock st.
Proof.
  assert (H : forall d, completed_on d (blocks (addBlock daysAgo now st)) =
                        completed_on d (blocks st)).
  { intros d. unfold addBlock.
    destruct (negb (truthy (trim (newBlock st)))); [reflexivity|].
    simpl blocks. rewrite completed_on_app. unfold completed_on at 2.
    simpl. rewrite andb_false_r. simpl. lia. }
  split.
  - unfold streak. apply streak_loop_by_counts. exact H.
  - apply weeklyData_by_counts. exact H.
Qed.

Lemma streak_loop_ge daysAgo bs n i s : s <= streak_loop daysAgo bs n i s.
Proof.
  revert i s; induction n as [|n IH]; intros i s; simpl; [lia|].
  destruct (day_counts daysAgo bs i); [|lia].
  specialize (IH (S i) (S s)). lia.
Qed.


(** ** Bounds of the progress *)

(** The progress lies between 0 and 100; it is 100 when every block of
    today is completed and 0 when none is. (An array has fewer than
    [2 ^ 32] elements.) *)
Theorem progress_bounds daysAgo st :
  let todays := on_date (today daysAgo) (blocks st) in
  (Z.of_nat (length todays) < 2 ^ 32)%Z ->
  (0 <= progress daysAgo st <= 100)%Z /\
  (todays <> [] -> filter completed todays = todays ->
   progress daysAgo st = 100%Z) /\
  (filter completed todays = [] -> progress daysAgo st = 0%Z).
Proof.
  cbv zeta. intros Hb. rewrite progress_counts. cbv zeta.
  set (todays := on_date (today daysAgo) (blocks st)) in *.
  pose proof (filter_length_le completed todays) as F.
  destruct (length todays) as [|n] eqn:L.
  - cbn [Nat.eqb]. repeat split; try lia.
    intros N. destruct todays; [congruence | discriminate L].
  - rewrite <- L in *. replace (length todays =? 0)%nat with false
      by (symmetry; apply Nat.eqb_neq; lia).
    assert (P : (0 < length todays)%nat) by lia.
    pose proof (@percent_nearest (length (filter completed todays))
                  (length todays) P F Hb) as N.
    cbv zeta in N.
    set (p := Math_round _) in *.
    repeat split.
    + nia.
    + nia.
    + intros _ A. rewrite A in N. nia.
    + intros A. rewrite A in N. simpl length in N. nia.
Qed.

Lemma progress_bounds_witness :
  let st := store [ block 1 "Run" true "2024-01-02" false 0;
                    block 2 "Read" true "2024-01-02" false 1;
                    block 4 "Run" false "2024-01-01" false 0 ] in
  (Z.of_nat (length (on_date (today jan2) (blocks st))) < 2 ^ 32)%Z /\
  progress jan2 st = 100%Z.
Proof.
  intros st.
  assert (H : (Z.of_nat (length (on_date (today jan2) (blocks st)))
               < 2 ^ 32)%Z) by (vm_compute; reflexivity).
  split; [exact H|].
  apply (proj1 (proj2 (@progress_bounds jan2 st H)));
    vm_compute; [discriminate | reflexivity].
Defined.

(** ** What a drag does to the store *)

Lemma firstn_length_app A (l r : list A) : firstn (length l) (l ++ r) = l.
Proof.
  induction l as [|x l IH]; simpl; [destruct r|rewrite IH]; reflexivity.
Qed.

Lemma skipn_length_app A (l r : list A) : skipn (length l) (l ++ r) = r.
Proof. induction l as [|x l IH]; simpl; [reflexivity | exact IH]. Qed.

Lemma splice_move_perm A start start' (l : list A) m ms rest :
  splice_remove1 start l = (m :: ms, rest) ->
  Permutation (splice_insert start' m rest) l.
Proof.
  unfold splice_remove1, splice_insert. intros E. injection E as E1 E2.
  set (k := actualStart (length l) start) in *.
  set (j := actualStart (length rest) start').
  apply perm_trans with (m :: rest).
  - apply Permutation_sym. rewrite <- (firstn_skipn j rest) at 1.
    apply Permutation_middle.
  - rewrite <- E2. rewrite <- (firstn_skipn k l) at 3.
    destruct (skipn k l) as [|x tl] eqn:Sk; [discriminate E1|].
    simpl in E1. injection E1 as -> _.
    assert (T : skipn (S k) l = tl).
    { replace (S k) with (1 + k) by reflexivity.
      rewrite <- skipn_skipn, Sk. reflexivity. }
    change (match l with [] => [] | _ :: l0 => skipn k l0 end)
      with (skipn (S k) l).
    rewrite T. apply Permutation_middle.
Qed.

Lemma filter_partition_perm A (p : A -> bool) l :
  Permutation (filter (fun x => negb (p x)) l ++ filter p l) l.
Proof.
  induction l as [|x l IH]; simpl; [apply perm_nil|].
  destruct (p x); simpl.
  - apply Permutation_sym. apply Permutation_cons_app.
    apply Permutation_sym. exact IH.
  - apply perm_skip. exact IH.
Qed.

Lemma reindexed_erased l i :
  map (with_order 0) (mapi_from (fun b k => with_order (Z.of_nat k) b) l i) =
  map (with_order 0) l.
Proof.
  revert i; induction l as [|b l IH]; intros i; simpl; [reflexivity|].
  rewrite IH. reflexivity.
Qed.

(** The blocks [reorder] returns are the blocks it was given, up to their
    [order]. *)
Lemma reorder_perm daysAgo a o prev v :
  reorder daysAgo a o prev = Some v ->
  Permutation (map (with_order 0) v) (map (with_order 0) prev).
Proof.
  unfold reorder.
  set (items := sort_by_order
                  (filter (fun b => str_eqb (date b) (today daysAgo)) prev)).
  set (oldIndex := findIndex _ items). set (newIndex := findIndex _ items).
  destruct (splice_remove1 oldIndex items) as [removed rest] eqn:R.
  destruct removed as [|moved removed]; [discriminate|].
  intros E. injection E as <-.
  rewrite map_app. unfold mapi. rewrite reindexed_erased.
  rewrite <- map_app. apply Permutation_map.
  apply perm_trans
    with (filter (fun b => negb (str_eqb (date b) (today daysAgo))) prev ++
          filter (fun b => str_eqb (date b) (today daysAgo)) prev);
    [|apply filter_partition_perm].
  apply Permutation_app_head.
  apply perm_trans with items.
  - exact (splice_move_perm newIndex R).
  - apply sort_by_order_perm.
Qed.

Lemma filter_length_map A (f : A -> A) (p : A -> bool) l :
  (forall x, p (f x) = p x) ->
  length (filter p (map f l)) = length (filter p l).
Proof.
  intros H. induction l as [|x l IH]; simpl; [reflexivity|].
  rewrite H. destruct (p x); simpl; rewrite IH; reflexivity.
Qed.

Lemma count_up_to_order (p : Block -> bool) l l' :
  (forall b, p (with_order 0 b) = p b) ->
  Permutation (map (with_order 0) l') (map (with_order 0) l) ->
  length (filter p l') = length (filter p l).
Proof.
  intros H P.
  rewrite <- (filter_length_map (with_order 0) p l' H).
  rewrite <- (filter_length_map (with_order 0) p l H).
  apply Permutation_filter_length. exact P.
Qed.

(** A drag that ends on another block loses no block, adds none and
    changes no field but [order]: up to [order], the store holds the same
    blocks, and the form is untouched. *)
Theorem handleDragEnd_keeps_blocks daysAgo event st st' :
  handleDragEnd daysAgo event st = Some st' ->
  Permutation (map (with_order 0) (blocks st'))
              (map (with_order 0) (blocks st)) /\
  length (blocks st') = length (blocks st) /\
  newBlock st' = newBlock st /\
  form_category st' = form_category st /\
  form_isRecurring st' = form_isRecurring st.
Proof.
  intros E.
  assert (P : Permutation (map (with_order 0) (blocks st'))
                          (map (with_order 0) (blocks st)) /\
              newBlock st' = newBlock st /\
              form_category st' = form_category st /\
              form_isRecurring st' = form_isRecurring st).
  { unfold handleDragEnd in E. destruct (over event) as [o|].
    - destruct (num_eqb (active event) o).
      + injection E as <-. repeat split. apply Permutation_refl.
      + destruct (reorder daysAgo (active event) o (blocks st)) as [v|] eqn:R;
          [|discriminate].
        injection E as <-. simpl. repeat split.
        exact (reorder_perm _ _ _ _ R).
    - injection E as <-. repeat split. apply Permutation_refl. }
  destruct P as (P & F). split; [exact P|]. split; [|exact F].
  apply Permutation_length in P. rewrite !length_map in P. exact P.
Qed.

Lemma handleDragEnd_keeps_blocks_witness :
  let st := store [ block 1 "Run" false "2024-01-02" false 0;
                    block 9 "Plan" true "2024-01-01" false 0;
                    block 2 "Read" false "2024-01-02" false 1 ] in
  let st' := store [ block 9 "Plan" true "2024-01-01" false 0;
                     block 2 "Read" false "2024-01-02" false 0;
                     block 1 "Run" false "2024-01-02" false 1 ] in
  handleDragEnd jan2 (mkDragEnd (inject_Z 1) (Some (inject_Z 2))) st
    = Some st' /\
  length (blocks st') = length (blocks st).
Proof.
  intros st st'.
  assert (H : handleDragEnd jan2 (mkDragEnd (inject_Z 1) (Some (inject_Z 2)))
                st = Some st') by (vm_compute; reflexivity).
  split; [exact H|].
  exact (proj1 (proj2 (@handleDragEnd_keeps_blocks jan2 _ st st' H))).
Defined.

(** A drag changes none of the metrics, on any day they are read:
    progress, streak and weekly chart are the same before and after. *)
Theorem handleDragEnd_keeps_metrics daysAgo clock event st st' :
  handleDragEnd daysAgo event st = Some st' ->
  progress clock st' = progress clock st /\
  streak clock (blocks st') = streak clock (blocks st) /\
  weeklyData clock st' = weeklyData clock st.
Proof.
  intros E.
  assert (P : Permutation (map (with_order 0) (blocks st'))
                          (map (with_order 0) (blocks st))).
  { unfold handleDragEnd in E. destruct (over event) as [o|].
    - destruct (num_eqb (active event) o).
      + injection E as <-. apply Permutation_refl.
      + destruct (reorder daysAgo (active event) o (blocks st)) as [v|] eqn:R;
          [|discriminate].
        injection E as <-. exact (reorder_perm _ _ _ _ R).
    - injection E as <-. apply Permutation_refl. }
  assert (C : forall d, completed_on d (blocks st') =
                        completed_on d (blocks st)).
  { intros d. unfold completed_on.
    apply count_up_to_order; [reflexivity | exact P]. }
  split; [|split].
  - apply progress_by_counts; [|exact C].
    unfold on_date. apply count_up_to_order; [reflexivity | exact P].
  - unfold streak. apply streak_loop_by_counts. exact C.
  - apply weeklyData_by_counts. exact C.
Qed.

Lemma handleDragEnd_keeps_metrics_witness :
  let st := store [ block 1 "Run" true "2024-01-02" false 0;
                    block 2 "Read" false "2024-01-02" false 1;
                    block 3 "Walk" false "2024-01-02" false 2 ] in
  let st' := store [ block 2 "Read" false "2024-01-02" false 0;
                     block 3 "Walk" false "2024-01-02" false 1;
                     block 1 "Run" true "2024-01-02" false 2 ] in
  handleDragEnd jan2 (mkDragEnd (inject_Z 1) (Some (inject_Z 3))) st
    = Some st' /\
  progress jan2 st' = progress jan2 st.
Proof.
  intros st st'.
  assert (H : handleDragEnd jan2 (mkDragEnd (inject_Z 1) (Some (inject_Z 3)))
                st = Some st') by (vm_compute; reflexivity).
  split; [exact H|].
  exact (proj1 (@handleDragEnd_keeps_metrics jan2 jan2 _ st st' H)).
Defined.

(** After a drag that ended on another block, today's blocks carry the
    orders 0, 1, 2, ... in the sequence the array holds them, whatever
    their orders were before, and the blocks of every other date are the
    ones of before, in their sequence. *)
Theorem handleDragEnd_renumbers_today daysAgo a o st st' :
  ~ Qeq a o ->
  handleDragEnd daysAgo (mkDragEnd a (Some o)) st = Some st' ->
  map order (on_date (today daysAgo) (blocks st')) =
    map Z.of_nat (seq 0 (length (on_date (today daysAgo) (blocks st)))) /\
  (forall d, d <> today daysAgo ->
             on_date d (blocks st') = on_date d (blocks st)).
Proof.
  intros N E. unfold handleDragEnd in E. simpl in E.
  destruct (num_eqb a o) eqn:Q;
    [exfalso; apply N; apply num_eqb_eq; exact Q|].
  destruct (reorder daysAgo a o (blocks st)) as [v|] eqn:R; [|discriminate].
  injection E as <-. simpl blocks.
  destruct (reorder_result _ _ _ _ R) as [T O]. split; [|exact O].
  rewrite T. do 2 f_equal. unfold on_date.
  apply count_up_to_order; [reflexivity|].
  exact (reorder_perm _ _ _ _ R).
Qed.

Lemma handleDragEnd_renumbers_today_witness :
  let st := store [ block 1 "Run" false "2024-01-02" false 7;
                    block 2 "Read" false "2024-01-02" false 3;
                    block 9 "Plan" true "2024-01-01" false 5 ] in
  ~ Qeq (inject_Z 1) (inject_Z 2) /\
  exists st',
    handleDragEnd jan2 (mkDragEnd (inject_Z 1) (Some (inject_Z 2))) st
      = Some st' /\
    map order (on_date (today jan2) (blocks st')) = [0%Z; 1%Z].
Proof.
  intros st.
  assert (N : ~ Qeq (inject_Z 1) (inject_Z 2)) by (intros E; discriminate E).
  split; [exact N|].
  exists (store [ block 9 "Plan" true "2024-01-01" false 5;
                  block 1 "Run" false "2024-01-02" false 0;
                  block 2 "Read" false "2024-01-02" false 1 ]).
  assert (H : handleDragEnd jan2 (mkDragEnd (inject_Z 1) (Some (inject_Z 2)))
                st =
              Some (store [ block 9 "Plan" true "2024-01-01" false 5;
                            block 1 "Run" false "2024-01-02" false 0;
                            block 2 "Read" false "2024-01-02" false 1 ]))
    by (vm_compute; reflexivity).
  split; [exact H|].
  rewrite (proj1 (@handleDragEnd_renumbers_today jan2 _ _ st _ N H)).
  vm_compute. reflexivity.
Defined.

(** ** Where a dragged block lands *)

Lemma findIndex_from_found A (p : A -> bool) X a R i :
  (forall x, In x X -> p x = false) -> p a = true ->
  findIndex_from p (X ++ a :: R) i = (i + Z.of_nat (length X))%Z.
Proof.
  revert i; induction X as [|x X IH]; intros i HX Ha; simpl.
  - rewrite Ha. lia.
  - rewrite (HX x) by (left; reflexivity).
    rewrite IH; [lia | intros y Hy; apply HX; right; exact Hy | exact Ha].
Qed.

Lemma findIndex_from_absent A (p : A -> bool) l i :
  (forall x, In x l -> p x = false) -> findIndex_from p l i = (-1)%Z.
Proof.
  revert i; induction l as [|x l IH]; intros i H; simpl; [reflexivity|].
  rewrite (H x) by (left; reflexivity).
  apply IH. intros y Hy. apply H. right; exact Hy.
Qed.

Lemma findIndex_from_range A (p : A -> bool) l i :
  findIndex_from p l i = (-1)%Z \/
  (i <= findIndex_from p l i < i + Z.of_nat (length l))%Z.
Proof.
  revert i; induction l as [|x l IH]; intros i; simpl; [left; reflexivity|].
  destruct (p x); [right; lia|].
  destruct (IH (i + 1)%Z) as [E|E]; [left; exact E | right; lia].
Qed.

Lemma actualStart_index len k :
  k <= len -> actualStart len (Z.of_nat k) = k.
Proof.
  intros H. unfold actualStart.
  replace (Z.of_nat k <? 0)%Z with false by (symmetry; apply Z.ltb_ge; lia).
  lia.
Qed.

Lemma actualStart_last len : actualStart (S len) (-1) = len.
Proof. unfold actualStart. change (-1 <? 0)%Z with true. cbv iota. lia. Qed.

Lemma num_eqb_false a b : ~ Qeq a b -> num_eqb a b = false.
Proof.
  intros H. apply not_true_is_false. intros E. apply H.
  apply num_eqb_eq. exact E.
Qed.

Lemma insert_by_order_first x l :
  HdRel order_le x l -> insert_by_order x l = x :: l.
Proof.
  intros H. destruct H as [|y l H]; simpl; [reflexivity|].
  apply Z.leb_le in H. rewrite H. reflexivity.
Qed.

Lemma sort_by_order_fixes l : Sorted order_le l -> sort_by_order l = l.
Proof.
  induction 1 as [|x l S IH H]; simpl; [reflexivity|].
  rewrite IH. apply insert_by_order_first. exact H.
Qed.

Lemma reindexed_sorted l i :
  Sorted order_le (mapi_from (fun b k => with_order (Z.of_nat k) b) l i).
Proof.
  revert i; induction l as [|b l IH]; intros i; simpl; constructor.
  - apply IH.
  - destruct l; simpl; constructor. unfold order_le; simpl. lia.
Qed.

(** Today's list after [reorder]: the blocks [splice] left, with the
    moved one put back, numbered from 0. *)
Lemma reorder_todays daysAgo a o prev moved removed rest :
  let items :=
    sort_by_order (filter (fun b => str_eqb (date b) (today daysAgo)) prev) in
  splice_remove1 (findIndex (fun b => num_eqb (id b) a) items) items
    = (moved :: removed, rest) ->
  exists v,
    reorder daysAgo a o prev = Some v /\
    sort_by_order (filter (fun b => str_eqb (date b) (today daysAgo)) v) =
    mapi (fun b i => with_order (Z.of_nat i) b)
         (splice_insert (findIndex (fun b => num_eqb (id b) o) items)
                        moved rest).
Proof.
  cbv zeta. intros R. unfold reorder. rewrite R.
  eexists. split; [reflexivity|].
  set (items := sort_by_order _) in *.
  set (updated := mapi _ _).
  assert (Items : forall b, In b items -> date b = today daysAgo).
  { intros b Hb. unfold items in Hb.
    apply (Permutation_in _ (sort_by_order_perm _)) in Hb.
    apply filter_In in Hb. apply str_eqb_eq. apply Hb. }
  assert (Upd : forall b, In b updated -> date b = today daysAgo).
  { intros b Hb. apply reindexed_dates in Hb.
    destruct Hb as (b' & Hb' & ->).
    apply (Permutation_in _ (splice_move_perm _ R)) in Hb'.
    apply Items. exact Hb'. }
  change (filter (fun b => str_eqb (date b) (today daysAgo)))
    with (on_date (today daysAgo)).
  rewrite on_date_app, (on_date_all _ Upd), on_date_nil.
  - simpl. apply sort_by_order_fixes. apply reindexed_sorted.
  - intros b Hb. apply filter_In in Hb. destruct Hb as [_ Hb].
    apply negb_true_iff in Hb. apply str_eqb_neq. exact Hb.
Qed.

(** A block dragged down the list onto another takes the place of that
    block, and the blocks from the one below it to the target move up by
    one. Today's list is [X ++ A :: Y ++ O :: Z], [A] is the first block
    of id [a] and [O] the first of id [o]; after the drag the list is
    [X ++ Y ++ O :: A :: Z], numbered from 0. *)
Theorem handleDragEnd_moves_down daysAgo a o st X A Y O Z :
  todaysBlocks daysAgo st = X ++ A :: Y ++ O :: Z ->
  Qeq (id A) a -> Qeq (id O) o -> ~ Qeq a o ->
  (forall x, In x X -> ~ Qeq (id x) a /\ ~ Qeq (id x) o) ->
  (forall y, In y Y -> ~ Qeq (id y) o) ->
  exists st',
    handleDragEnd daysAgo (mkDragEnd a (Some o)) st = Some st' /\
    todaysBlocks daysAgo st' =
      mapi (fun b i => with_order (Z.of_nat i) b) (X ++ Y ++ O :: A :: Z).
Proof.
  intros T HA HO N HX HY. unfold todaysBlocks in T.
  assert (Ia : findIndex (fun b => num_eqb (id b) a) (X ++ A :: Y ++ O :: Z)
               = Z.of_nat (length X)).
  { unfold findIndex. rewrite findIndex_from_found; [lia| |].
    - intros x Hx. apply num_eqb_false. apply HX. exact Hx.
    - apply num_eqb_eq. exact HA. }
  assert (Io : findIndex (fun b => num_eqb (id b) o) (X ++ A :: Y ++ O :: Z)
               = Z.of_nat (length (X ++ Y ++ [O]))).
  { unfold findIndex.
    replace (X ++ A :: Y ++ O :: Z) with ((X ++ A :: Y) ++ O :: Z)
      by (rewrite <- app_assoc; reflexivity).
    rewrite findIndex_from_found.
    - rewrite !length_app. simpl. lia.
    - intros x Hx. apply num_eqb_false. apply in_app_or in Hx.
      destruct Hx as [Hx|[<-|Hx]].
      + apply HX. exact Hx.
      + intros E. apply N. rewrite <- HA. exact E.
      + apply HY. exact Hx.
    - apply num_eqb_eq. exact HO. }
  assert (R : splice_remove1 (Z.of_nat (length X)) (X ++ A :: Y ++ O :: Z)
              = ([A], X ++ Y ++ O :: Z)).
  { unfold splice_remove1.
    rewrite actualStart_index by (rewrite length_app; lia).
    rewrite firstn_length_app.
    change (S (length X)) with (1 + length X). rewrite <- skipn_skipn.
    rewrite skipn_length_app. reflexivity. }
  destruct (@reorder_todays daysAgo a o (blocks st) A [] (X ++ Y ++ O :: Z))
    as (v & Rv & Tv).
  { cbv zeta. rewrite T, Ia. exact R. }
  exists (setBlocks v st). split.
  - unfold handleDragEnd; simpl. rewrite (num_eqb_false N), Rv. reflexivity.
  - unfold todaysBlocks; simpl blocks. rewrite Tv. rewrite T, Io. f_equal.
    unfold splice_insert.
    rewrite actualStart_index by (rewrite !length_app; simpl; lia).
    replace (X ++ Y ++ O :: Z) with ((X ++ Y ++ [O]) ++ Z)
      by (rewrite <- !app_assoc; reflexivity).
    rewrite firstn_length_app, skipn_length_app.
    rewrite <- !app_assoc. reflexivity.
Qed.

(** A block dragged up the list onto another takes the place of that
    block, and the blocks from the target to the one above it move down by
    one: [X ++ O :: Y ++ A :: Z] becomes [X ++ A :: O :: Y ++ Z]. *)
Theorem handleDragEnd_moves_up daysAgo a o st X O Y A Z :
  todaysBlocks daysAgo st = X ++ O :: Y ++ A :: Z ->
  Qeq (id A) a -> Qeq (id O) o -> ~ Qeq a o ->
  (forall x, In x X -> ~ Qeq (id x) a /\ ~ Qeq (id x) o) ->
  (forall y, In y Y -> ~ Qeq (id y) a) ->
  exists st',
    handleDragEnd daysAgo (mkDragEnd a (Some o)) st = Some st' /\
    todaysBlocks daysAgo st' =
      mapi (fun b i => with_order (Z.of_nat i) b) (X ++ A :: O :: Y ++ Z).
Proof.
  intros T HA HO N HX HY. unfold todaysBlocks in T.
  assert (Io : findIndex (fun b => num_eqb (id b) o) (X ++ O :: Y ++ A :: Z)
               = Z.of_nat (length X)).
  { unfold findIndex. rewrite findIndex_from_found; [lia| |].
    - intros x Hx. apply num_eqb_false. apply HX. exact Hx.
    - apply num_eqb_eq. exact HO. }
  assert (Ia : findIndex (fun b => num_eqb (id b) a) (X ++ O :: Y ++ A :: Z)
               = Z.of_nat (length (X ++ O :: Y))).
  { unfold findIndex.
    replace (X ++ O :: Y ++ A :: Z) with ((X ++ O :: Y) ++ A :: Z)
      by (rewrite <- app_assoc; reflexivity).
    rewrite findIndex_from_found; [lia| |].
    - intros x Hx. apply num_eqb_false. apply in_app_or in Hx.
      destruct Hx as [Hx|[<-|Hx]].
      + apply HX. exact Hx.
      + intros E. apply N. rewrite <- HO. symmetry. exact E.
      + apply HY. exact Hx.
    - apply num_eqb_eq. exact HA. }
  assert (R : splice_remove1 (Z.of_nat (length (X ++ O :: Y)))
                (X ++ O :: Y ++ A :: Z)
              = ([A], X ++ O :: Y ++ Z)).
  { unfold splice_remove1.
    replace (X ++ O :: Y ++ A :: Z) with ((X ++ O :: Y) ++ A :: Z)
      by (rewrite <- app_assoc; reflexivity).
    rewrite actualStart_index by (rewrite !length_app; simpl; lia).
    rewrite firstn_length_app.
    change (S (length (X ++ O :: Y))) with (1 + length (X ++ O :: Y)).
    rewrite <- skipn_skipn. rewrite skipn_length_app.
    simpl. rewrite <- app_assoc. reflexivity. }
  destruct (@reorder_todays daysAgo a o (blocks st) A [] (X ++ O :: Y ++ Z))
    as (v & Rv & Tv).
  { cbv zeta. rewrite T, Ia. exact R. }
  exists (setBlocks v st). split.
  - unfold handleDragEnd; simpl. rewrite (num_eqb_false N), Rv. reflexivity.
  - unfold todaysBlocks; simpl blocks. rewrite Tv. rewrite T, Io. f_equal.
    unfold splice_insert.
    rewrite actualStart_index by (rewrite !length_app; simpl; lia).
    rewrite firstn_length_app, skipn_length_app. reflexivity.
Qed.

Lemma handleDragEnd_moves_down_witness :
  let st := store [ block 3 "Walk" false "2024-01-02" false 2;
                    block 1 "Run" false "2024-01-02" false 0;
                    block 4 "Cook" false "2024-01-02" false 3;
                    block 2 "Read" false "2024-01-02" false 1 ] in
  exists st',
    handleDragEnd jan2 (mkDragEnd (inject_Z 2) (Some (inject_Z 4))) st
      = Some st' /\
    todaysBlocks jan2 st' =
      [ block 1 "Run" false "2024-01-02" false 0;
        block 3 "Walk" false "2024-01-02" false 1;
        block 4 "Cook" false "2024-01-02" false 2;
        block 2 "Read" false "2024-01-02" false 3 ].
Proof.
  intros st.
  destruct (@handleDragEnd_moves_down jan2 (inject_Z 2) (inject_Z 4) st
              [ block 1 "Run" false "2024-01-02" false 0 ]
              (block 2 "Read" false "2024-01-02" false 1)
              [ block 3 "Walk" false "2024-01-02" false 2 ]
              (block 4 "Cook" false "2024-01-02" false 3)
              [])
    as (st' & H & T).
  - vm_compute. reflexivity.
  - reflexivity.
  - reflexivity.
  - intros E; discriminate E.
  - intros x [<-|[]]; split; intros E; discriminate E.
  - intros y [<-|[]]; intros E; discriminate E.
  - exists st'. split; [exact H|]. rewrite T. vm_compute. reflexivity.
Defined.

Lemma handleDragEnd_moves_up_witness :
  let st := store [ block 3 "Walk" false "2024-01-02" false 2;
                    block 1 "Run" false "2024-01-02" false 0;
                    block 4 "Cook" false "2024-01-02" false 3;
                    block 2 "Read" false "2024-01-02" false 1 ] in
  exists st',
    handleDragEnd jan2 (mkDragEnd (inject_Z 4) (Some (inject_Z 2))) st
      = Some st' /\
    todaysBlocks jan2 st' =
      [ block 1 "Run" false "2024-01-02" false 0;
        block 4 "Cook" false "2024-01-02" false 1;
        block 2 "Read" false "2024-01-02" false 2;
        block 3 "Walk" false "2024-01-02" false 3 ].
Proof.
  intros st.
  destruct (@handleDragEnd_moves_up jan2 (inject_Z 4) (inject_Z 2) st
              [ block 1 "Run" false "2024-01-02" false 0 ]
              (block 2 "Read" false "2024-01-02" false 1)
              [ block 3 "Walk" false "2024-01-02" false 2 ]
              (block 4 "Cook" false "2024-01-02" false 3)
              [])
    as (st' & H & T).
  - vm_compute. reflexivity.
  - reflexivity.
  - reflexivity.
  - intros E; discriminate E.
  - intros x [<-|[]]; split; intros E; discriminate E.
  - intros y [<-|[]]; intros E; discriminate E.
  - exists st'. split; [exact H|]. rewrite T. vm_compute. reflexivity.
Defined.

(** ** When a drag has no store to give *)

Lemma splice_remove1_nothing A (l : list A) start rest :
  (start = (-1)%Z \/ (0 <= start < Z.of_nat (length l))%Z) ->
  splice_remove1 start l = ([], rest) -> l = [].
Proof.
  intros Hs E. unfold splice_remove1 in E. injection E as E _.
  destruct l as [|x l]; [reflexivity|]. exfalso.
  set (k := actualStart (length (x :: l)) start) in *.
  assert (K : k < length (x :: l)).
  { unfold k, actualStart. destruct Hs as [->|Hs].
    - change (-1 <? 0)%Z with true. cbv iota. simpl length. lia.
    - replace (start <? 0)%Z with false by (symmetry; apply Z.ltb_ge; lia).
      lia. }
  destruct (skipn k (x :: l)) eqn:Sk; [|discriminate E].
  apply (f_equal (@length A)) in Sk. rewrite length_skipn in Sk.
  simpl length in *. lia.
Qed.

(** A drag onto another block has a store to give exactly when today has
    a block. With no block dated today [splice] removes nothing, [moved]
    is [undefined], and what the updater builds from it is no block. *)
Theorem handleDragEnd_needs_a_block_today daysAgo a o st :
  ~ Qeq a o ->
  (handleDragEnd daysAgo (mkDragEnd a (Some o)) st = None <->
   on_date (today daysAgo) (blocks st) = []).
Proof.
  intros N. unfold handleDragEnd; simpl. rewrite (num_eqb_false N).
  unfold reorder.
  change (filter (fun b => str_eqb (date b) (today daysAgo)) (blocks st))
    with (on_date (today daysAgo) (blocks st)).
  set (items := sort_by_order (on_date (today daysAgo) (blocks st))).
  assert (L : length items = length (on_date (today daysAgo) (blocks st)))
    by (apply Permutation_length; apply sort_by_order_perm).
  split.
  - intros E.
    destruct (splice_remove1 _ items) as [removed rest] eqn:R.
    destruct removed as [|moved removed]; [|discriminate E].
    apply splice_remove1_nothing in R.
    + rewrite R in L. simpl in L.
      destruct (on_date (today daysAgo) (blocks st)); [reflexivity|].
      discriminate L.
    + unfold findIndex.
      destruct (findIndex_from_range (fun b => num_eqb (id b) a) items 0)
        as [F|F]; [left; exact F | right; lia].
  - intros E. unfold items. rewrite E. reflexivity.
Qed.

Lemma handleDragEnd_needs_a_block_today_witness :
  let st := store [ block 9 "Plan" true "2024-01-01" false 0 ] in
  ~ Qeq (inject_Z 9) (inject_Z 1) /\
  handleDragEnd jan2 (mkDragEnd (inject_Z 9) (Some (inject_Z 1))) st = None.
Proof.
  intros st.
  assert (N : ~ Qeq (inject_Z 9) (inject_Z 1)) by (intros E; discriminate E).
  split; [exact N|].
  apply (proj2 (@handleDragEnd_needs_a_block_today jan2 _ _ st N)).
  vm_compute. reflexivity.
Defined.

(** ** A drag of an id that is not in today's list *)

(** When the dragged id is not among today's blocks, the block that moves
    is the last of today's list: dropped on the first block of id [o], it
    goes right before it. [X ++ O :: Y ++ [L]] becomes
    [X ++ L :: O :: Y], numbered from 0. *)
Theorem handleDragEnd_unknown_active_moves_last daysAgo a o st X O Y L :
  todaysBlocks daysAgo st = X ++ O :: Y ++ [L] ->
  (forall b, In b (todaysBlocks daysAgo st) -> ~ Qeq (id b) a) ->
  Qeq (id O) o ->
  (forall x, In x X -> ~ Qeq (id x) o) ->
  exists st',
    handleDragEnd daysAgo (mkDragEnd a (Some o)) st = Some st' /\
    todaysBlocks daysAgo st' =
      mapi (fun b i => with_order (Z.of_nat i) b) (X ++ L :: O :: Y).
Proof.
  intros T Ha HO HX.
  assert (N : ~ Qeq a o).
  { intros E. apply (Ha O).
    - rewrite T. apply in_or_app. right; left; reflexivity.
    - rewrite E. exact HO. }
  unfold todaysBlocks in T, Ha.
  assert (Ia : findIndex (fun b => num_eqb (id b) a)
                 (X ++ O :: Y ++ [L]) = (-1)%Z).
  { apply findIndex_from_absent. intros b Hb. apply num_eqb_false.
    apply Ha. rewrite T. exact Hb. }
  assert (Io : findIndex (fun b => num_eqb (id b) o)
                 (X ++ O :: Y ++ [L]) = Z.of_nat (length X)).
  { unfold findIndex. rewrite findIndex_from_found; [lia| |].
    - intros x Hx. apply num_eqb_false. apply HX. exact Hx.
    - apply num_eqb_eq. exact HO. }
  assert (R : splice_remove1 (-1) (X ++ O :: Y ++ [L])
              = ([L], X ++ O :: Y)).
  { unfold splice_remove1.
    replace (X ++ O :: Y ++ [L]) with ((X ++ O :: Y) ++ [L])
      by (rewrite <- app_assoc; reflexivity).
    rewrite length_app. simpl length. rewrite Nat.add_1_r.
    rewrite actualStart_last.
    rewrite firstn_length_app.
    change (S (length (X ++ O :: Y))) with (1 + length (X ++ O :: Y)).
    rewrite <- skipn_skipn. rewrite skipn_length_app.
    simpl. rewrite app_nil_r. reflexivity. }
  destruct (@reorder_todays daysAgo a o (blocks st) L [] (X ++ O :: Y))
    as (v & Rv & Tv).
  { cbv zeta. rewrite T, Ia. exact R. }
  exists (setBlocks v st). split.
  - unfold handleDragEnd; simpl. rewrite (num_eqb_false N), Rv. reflexivity.
  - unfold todaysBlocks; simpl blocks. rewrite Tv. rewrite T, Io. f_equal.
    unfold splice_insert.
    rewrite actualStart_index by (rewrite !length_app; simpl; lia).
    rewrite firstn_length_app, skipn_length_app. reflexivity.
Qed.

Lemma handleDragEnd_unknown_active_moves_last_witness :
  let st := store [ block 1 "Run" false "2024-01-02" false 0;
                    block 2 "Read" false "2024-01-02" false 1;
                    block 3 "Walk" false "2024-01-02" false 2 ] in
  exists st',
    handleDragEnd jan2 (mkDragEnd (inject_Z 99) (Some (inject_Z 2))) st
      = Some st' /\
    todaysBlocks jan2 st' =
      [ block 1 "Run" false "2024-01-02" false 0;
        block 3 "Walk" false "2024-01-02" false 1;
        block 2 "Read" false "2024-01-02" false 2 ].
Proof.
  intros st.
  destruct (@handleDragEnd_unknown_active_moves_last jan2 (inject_Z 99)
              (inject_Z 2) st
              [ block 1 "Run" false "2024-01-02" false 0 ]
              (block 2 "Read" false "2024-01-02" false 1)
              []
              (block 3 "Walk" false "2024-01-02" false 2))
    as (st' & H & T).
  - vm_compute. reflexivity.
  - vm_compute. intros b [<-|[<-|[<-|[]]]]; intros E; discriminate E.
  - reflexivity.
  - intros x [<-|[]]; intros E; discriminate E.
  - exists st'. split; [exact H|]. rewrite T. vm_compute. reflexivity.
Defined.

(** ** Today's list *)

Lemma insert_by_order_stable k x s :
  filter (fun b => (order b =? k)%Z) (insert_by_order x s) =
  filter (fun b => (order b =? k)%Z) (x :: s).
Proof.
  induction s as [|y s IH]; [reflexivity|].
  cbn [insert_by_order]. destruct (order x <=? order y)%Z eqn:E;
    [reflexivity|].
  apply Z.leb_gt in E. cbn [filter] in *. rewrite IH.
  destruct (order x =? k)%Z eqn:Ex; [|reflexivity].
  apply Z.eqb_eq in Ex.
  replace (order y =? k)%Z with false
    by (symmetry; apply Z.eqb_neq; lia).
  reflexivity.
Qed.

Lemma sort_by_order_stable k l :
  filter (fun b => (order b =? k)%Z) (sort_by_order l) =
  filter (fun b => (order b =? k)%Z) l.
Proof.
  induction l as [|x l IH]; [reflexivity|].
  cbn [sort_by_order]. rewrite insert_by_order_stable.
  cbn [filter]. rewrite IH. reflexivity.
Qed.

(** [todaysBlocks] lists the blocks dated today, each once, in ascending
    [order]; blocks that share an [order] come in the sequence the store
    holds them. *)
Theorem todaysBlocks_sorted_stable daysAgo st :
  Sorted order_le (todaysBlocks daysAgo st) /\
  Permutation (todaysBlocks daysAgo st)
              (on_date (today daysAgo) (blocks st)) /\
  (forall k, filter (fun b => (order b =? k)%Z) (todaysBlocks daysAgo st) =
             filter (fun b => (order b =? k)%Z)
                    (on_date (today daysAgo) (blocks st))).
Proof.
  unfold todaysBlocks, on_date. split; [|split].
  - apply sort_by_order_sorted.
  - apply sort_by_order_perm.
  - intros k. apply sort_by_order_stable.
Qed.

(** ** The pass over the recurring blocks *)

Lemma mapi_from_nth A B (f : A -> nat -> B) l i k x :
  nth_error l k = Some x ->
  nth_error (mapi_from f l i) k = Some (f x (i + k)).
Proof.
  revert i k; induction l as [|y l IH]; intros i [|k]; simpl;
    try discriminate.
  - intros E; injection E as ->. rewrite Nat.add_0_r. reflexivity.
  - intros E. rewrite (IH (S i) k E). do 2 f_equal. lia.
Qed.

(** The pass keeps every block of the store as it is, in place, and the
    form; what it adds goes after them. The block generated for the
    template at index [k] has the identifier drawn at [k], the template's
    title, category and [order], is recurring, not completed and dated
    today. *)
Theorem recurrence_appends_generated daysAgo fresh st :
  let st' := recurrence daysAgo fresh st in
  blocks st' =
    blocks st ++ (if existsToday daysAgo st then []
                  else generated daysAgo fresh st) /\
  newBlock st' = newBlock st /\
  form_category st' = form_category st /\
  form_isRecurring st' = form_isRecurring st /\
  (forall k t,
     nth_error (templates daysAgo st) k = Some t ->
     exists g,
       nth_error (generated daysAgo fresh st) k = Some g /\
       id g = fresh k /\ title g = title t /\ category g = category t /\
       order g = order t /\ isRecurring g = true /\ completed g = false /\
       date g = today daysAgo).
Proof.
  cbv zeta. unfold recurrence.
  split; [|split; [|split; [|split]]].
  - destruct (existsToday daysAgo st); [symmetry; apply app_nil_r|].
    destruct (generated daysAgo fresh st); [symmetry; apply app_nil_r|].
    reflexivity.
  - destruct (existsToday daysAgo st); [reflexivity|].
    destruct (_ =? 0)%nat; reflexivity.
  - destruct (existsToday daysAgo st); [reflexivity|].
    destruct (_ =? 0)%nat; reflexivity.
  - destruct (existsToday daysAgo st); [reflexivity|].
    destruct (_ =? 0)%nat; reflexivity.
  - intros k t E. eexists. split.
    + unfold generated, mapi. apply mapi_from_nth. exact E.
    + simpl. repeat split.
      apply nth_error_In in E. apply filter_In in E. destruct E as [_ E].
      apply andb_true_iff in E. apply E.
Qed.

Lemma templates_all_recurring daysAgo st :
  existsToday daysAgo st = false ->
  templates daysAgo st = filter isRecurring (blocks st).
Proof.
  intros H. unfold templates. apply filter_ext_in. intros b Hb.
  destruct (isRecurring b) eqn:R; [|reflexivity]. simpl.
  destruct (str_eqb (date b) (today daysAgo)) eqn:D; [|reflexivity].
  exfalso. assert (E : existsToday daysAgo st = true).
  { apply existsb_exists. exists b. split; [exact Hb|].
    rewrite R, D. reflexivity. }
  congruence.
Qed.

(** On a day without a recurring block yet, the pass copies every
    recurring block of the store, copies of earlier days included: the
    number of recurring blocks doubles. *)
Theorem recurrence_doubles_recurring daysAgo fresh st :
  existsToday daysAgo st = false ->
  length (filter isRecurring (blocks (recurrence daysAgo fresh st))) =
  2 * length (filter isRecurring (blocks st)).
Proof.
  intros H. pose proof (templates_all_recurring _ _ H) as T.
  pose proof (generated_length daysAgo fresh st) as L. rewrite T in L.
  unfold recurrence. rewrite H.
  destruct (length (generated daysAgo fresh st) =? 0)%nat eqn:Z.
  - apply Nat.eqb_eq in Z. lia.
  - simpl blocks. rewrite filter_app, length_app.
    rewrite (filter_all isRecurring (l := generated daysAgo fresh st)).
    + lia.
    + pose proof (generated_recurring_today daysAgo fresh st) as F.
      apply Forall_forall. intros b Hb.
      rewrite Forall_forall in F. specialize (F b Hb).
      apply andb_true_iff in F. apply F.
Qed.

Lemma recurrence_doubles_recurring_witness :
  let st := store [ block 1 "Run" true "2023-12-31" true 0;
                    block 2 "Run" false "2024-01-01" true 0;
                    block 3 "Plan" false "2024-01-01" false 1 ] in
  let fresh := fun k => inject_Z (1704153600000 + Z.of_nat k) in
  existsToday jan2 st = false /\
  length (filter isRecurring (blocks (recurrence jan2 fresh st))) = 4.
Proof.
  intros st fresh.
  assert (H : existsToday jan2 st = false) by reflexivity.
  split; [exact H|].
  rewrite (@recurrence_doubles_recurring jan2 fresh st H). reflexivity.
Defined.

(** The pass changes neither the streak nor the weekly chart: the blocks
    it adds are not completed. *)
Theorem recurrence_keeps_streak_and_chart daysAgo clock fresh st :
  streak clock (blocks (recurrence daysAgo fresh st))
    = streak clock (blocks st) /\
  weeklyData clock (recurrence daysAgo fresh st) = weeklyData clock st.
Proof.
  assert (H : forall d,
             completed_on d (blocks (recurrence daysAgo fresh st)) =
             completed_on d (blocks st)).
  { intros d. unfold recurrence.
    destruct (existsToday daysAgo st); [reflexivity|].
    destruct (_ =? 0)%nat; [reflexivity|].
    simpl blocks. rewrite completed_on_app.
    assert (Z : completed_on d (generated daysAgo fresh st) = 0).
    { unfold completed_on. rewrite filter_none; [reflexivity|].
      apply not_true_is_false. intros E. apply existsb_exists in E.
      destruct E as (g & Hg & E). apply andb_true_iff in E.
      destruct E as [_ E]. unfold generated, mapi in Hg.
      assert (F : Forall (fun b => completed b = false)
                    (mapi_from (fun b k => regenerated (fresh k)
                                             (today daysAgo) b)
                               (templates daysAgo st) 0))
        by (apply mapi_from_Forall; reflexivity).
      rewrite Forall_forall in F. rewrite (F g Hg) in E. discriminate E. }
    lia. }
  split.
  - unfold streak. apply streak_loop_by_counts. exact H.
  - apply weeklyData_by_counts. exact H.
Qed.

(** ** A run of actions *)

Lemma dense_without_delete_witness :
  let st := mkState [ block 1 "Run" false "2024-01-02" false 0;
                      block 2 "Read" false "2024-01-02" false 1 ]
                    (js "Walk") Work false in
  let st' := toggleBlock (inject_Z 1) (addBlock jan2 3 st) in
  reachable st st' /\ dense (blocks st) /\ dense (blocks st').
Proof.
  intros st st'.
  assert (R : reachable st st').
  { apply reach_step with (addBlock jan2 3 st).
    - apply reach_step with st; [apply reach_refl | apply step_add].
    - apply step_toggle. }
  assert (D : dense (blocks st)).
  { intros d. unfold dense_on, on_date, st.
    cbn [filter blocks block date].
    destruct (str_eqb _ d); cbn [map length seq order block];
      apply Permutation_refl. }
  split; [exact R|]. split; [exact D|].
  exact (dense_without_delete R D).
Defined.

(** ** Deleting and the metrics *)

Lemma completed_on_filter d (q : Block -> bool) l :
  completed_on d (filter q l) <= completed_on d l.
Proof.
  unfold completed_on. rewrite filter_comm. apply filter_length_le.
Qed.

Lemma streak_loop_monotone daysAgo bs bs' n i s :
  (forall d, completed_on d bs' <= completed_on d bs) ->
  streak_loop daysAgo bs' n i s <= streak_loop daysAgo bs n i s.
Proof.
  intros H. revert i s; induction n as [|n IH]; intros i s; simpl; [lia|].
  rewrite !day_counts_completed_on. specialize (H (daysAgo i)).
  destruct (completed_on (daysAgo i) bs') as [|c']; simpl.
  - destruct (completed_on (daysAgo i) bs); simpl; [lia|].
    pose proof (streak_loop_ge daysAgo bs n (S i) (S s)). lia.
  - destruct (completed_on (daysAgo i) bs); simpl; [lia | apply IH].
Qed.

(** Deleting a block never lengthens the streak and never raises a bar of
    the weekly chart; the days of the chart stay the same. *)
Theorem deleteBlock_never_raises_metrics clock i st :
  streak clock (blocks (deleteBlock i st)) <= streak clock (blocks st) /\
  map day_label (weeklyData clock (deleteBlock i st)) =
    map day_label (weeklyData clock st) /\
  Forall2 le (map day_completed (weeklyData clock (deleteBlock i st)))
             (map day_completed (weeklyData clock st)).
Proof.
  assert (H : forall d, completed_on d (blocks (deleteBlock i st)) <=
                        completed_on d (blocks st))
    by (intros d; apply completed_on_filter).
  split; [|split].
  - unfold streak. apply streak_loop_monotone. exact H.
  - unfold weeklyData. rewrite !map_map. reflexivity.
  - unfold weeklyData. rewrite !map_map. cbn [day_completed].
    induction (last7Days clock) as [|d l IH]; simpl; constructor.
    + apply H.
    + exact IH.
Qed.

(** * The clock, the streak and the chart *)

(** ** The dates of the page *)

Example newYork_changes :
  map isoDate [19428; 19666; 19792; 20030]%Z =
  [js "2023-03-12"; js "2023-11-05"; js "2024-03-10"; js "2024-11-03"].
Proof. vm_compute. reflexivity. Qed.

Example pageClock_newYork :
  map (pageClock newYork march10_evening) [0; 1; 2; 3] =
  [js "2024-03-10"; js "2024-03-10"; js "2024-03-09"; js "2024-03-08"].
Proof. vm_compute. reflexivity. Qed.

(** With one offset throughout, day [i] of the page is the UTC date [i]
    days before the one of now. *)
Lemma pageClock_fixed offset now i :
  pageClock (fixedZone offset) now i = isoDate (Day now - Z.of_nat i).
Proof.
  unfold pageClock, toISODate, setDate, getDate, LocalTime, UTC, fixedZone.
  cbn [offsetAt offsetOfLocal]. f_equal.
  set (tl := (now + offset)%Z). set (d := DateFromTime tl).
  unfold Day, TimeWithinDay.
  replace ((tl / msPerDay - (d - 1) + (d - Z.of_nat i) - 1) * msPerDay +
           tl mod msPerDay - offset)%Z
    with (now + - Z.of_nat i * msPerDay)%Z.
  - rewrite Z.div_add by discriminate. lia.
  - pose proof (Z.div_mod tl msPerDay) as E. unfold tl in *.
    assert (N : msPerDay <> 0%Z) by discriminate. specialize (E N). lia.
Qed.

(** ** The streak on the clock of the page *)

Lemma day_counts_has_completed daysAgo bs i :
  day_counts daysAgo bs i = true <-> has_completed (daysAgo i) bs.
Proof.
  unfold day_counts, has_completed. rewrite existsb_exists.
  split; intros (b & Hb & H); exists b; split; try exact Hb.
  - apply andb_true_iff in H. destruct H as [D C].
    apply str_eqb_eq in D. split; assumption.
  - destruct H as [D C]. apply andb_true_iff. split; [|exact C].
    apply str_eqb_eq. exact D.
Qed.

(** What the loop of [streak] counts, on any clock: the steps from 0 on
    whose date has a completed block, up to the first step whose date has
    none, 365 steps at most. *)
Lemma streak_walk daysAgo bs :
  let n := streak daysAgo bs in
  n <= 365 /\
  (forall i, i < n -> has_completed (daysAgo i) bs) /\
  (n = 365 \/ ~ has_completed (daysAgo n) bs) /\
  (~ has_completed (daysAgo 0) bs -> n = 0).
Proof.
  cbv zeta. unfold streak.
  destruct (streak_loop_spec daysAgo bs 365 0 0) as (k & E & Hk & Hall & Hstop).
  rewrite E. change (0 + k) with k. split; [exact Hk|]. split; [|split].
  - intros i Hi. apply day_counts_has_completed. apply (Hall i Hi).
  - destruct Hstop as [->|Hstop]; [left; reflexivity|right].
    intros H. apply day_counts_has_completed in H.
    change (0 + k) with k in Hstop. congruence.
  - intros H0. destruct k; [reflexivity|]. exfalso. apply H0.
    apply day_counts_has_completed. apply (Hall 0). lia.
Qed.

(** In a time zone that keeps one offset, [streak] is the number of
    consecutive calendar days, from the UTC date of now backwards and 365
    at most, on which some block of that date is completed; it is 0 when
    no block of today's date is completed. *)
Theorem streak_fixed_offset offset now bs :
  let n := streak (pageClock (fixedZone offset) now) bs in
  n <= 365 /\
  (forall i, i < n -> has_completed (isoDate (Day now - Z.of_nat i)) bs) /\
  (n = 365 \/ ~ has_completed (isoDate (Day now - Z.of_nat n)) bs) /\
  (~ has_completed (isoDate (Day now)) bs -> n = 0).
Proof.
  cbv zeta.
  destruct (streak_walk (pageClock (fixedZone offset) now) bs)
    as (B & A & S & Z0).
  split; [exact B|]. split; [|split].
  - intros i Hi. rewrite <- (pageClock_fixed offset). apply A. exact Hi.
  - destruct S as [S|S]; [left; exact S|right].
    rewrite <- (pageClock_fixed offset). exact S.
  - intros H. apply Z0. rewrite pageClock_fixed.
    replace (Day now - Z.of_nat 0)%Z with (Day now) by (simpl; lia).
    exact H.
Qed.

Lemma streak_fixed_offset_witness :
  let bs := [ block 1 "Run" false "2024-03-10" false 0;
              block 2 "Run" true "2024-03-09" false 0;
              block 3 "Run" true "2024-03-08" false 0 ] in
  ~ has_completed (isoDate (Day march10_evening)) bs /\
  streak (pageClock (fixedZone (-5 * msPerHour)) march10_evening) bs = 0.
Proof.
  intros bs.
  assert (H : ~ has_completed (isoDate (Day march10_evening)) bs).
  { intros (b & Hb & D & C). destruct Hb as [<-|[<-|[<-|[]]]];
      vm_compute in D; vm_compute in C; discriminate. }
  split; [exact H|].
  exact (proj2 (proj2 (proj2
           (streak_fixed_offset (-5 * msPerHour) march10_evening bs))) H).
Defined.

(** C5. New York, 2024-03-10 at 23:30Z, the evening after the clocks went
    forward. One block, dated 2024-03-10, is completed; no block of
    2024-03-09 is. [setDate] steps back a day of local time and
    [toISOString] prints the UTC date, which is 2024-03-10 for step 0 and
    for step 1: the walk counts that day twice and the streak is 2, where
    one day counts and the day before does not. On a clock that keeps the
    offset of five hours the streak of the same store is 1. *)
Theorem streak_counts_a_day_twice :
  let clock := pageClock newYork march10_evening in
  let bs := [ block 1 "Run" true "2024-03-10" false 0;
              block 2 "Read" false "2024-03-09" false 0 ] in
  clock 0 = js "2024-03-10" /\ clock 1 = js "2024-03-10" /\
  clock 2 = js "2024-03-09" /\
  has_completed (js "2024-03-10") bs /\
  ~ has_completed (js "2024-03-09") bs /\
  streak clock bs = 2 /\
  streak (pageClock (fixedZone (-5 * msPerHour)) march10_evening) bs = 1.
Proof.
  intros clock bs.
  split; [vm_compute; reflexivity|]. split; [vm_compute; reflexivity|].
  split; [vm_compute; reflexivity|]. split; [|split; [|split]].
  - exists (block 1 "Run" true "2024-03-10" false 0).
    split; [left; reflexivity | split; reflexivity].
  - intros (b & Hb & D & C). destruct Hb as [<-|[<-|[]]];
      vm_compute in D; vm_compute in C; discriminate.
  - vm_compute. reflexivity.
  - vm_compute. reflexivity.
Qed.

(** ** The weekly chart on the clock of the page *)

Lemma counts_completed_on d bs : counts_completed d bs (completed_on d bs).
Proof.
  unfold counts_completed, completed_on.
  set (p := fun b => str_eqb (date b) d && completed b).
  exists (filter p bs), (filter (fun b => negb (p b)) bs).
  split; [|split; [|split]].
  - apply Permutation_sym.
    apply perm_trans with (filter (fun b => negb (p b)) bs ++ filter p bs);
      [apply Permutation_app_comm | apply filter_partition_perm].
  - apply Forall_forall. intros b Hb. apply filter_In in Hb.
    destruct Hb as [_ Hb]. unfold p in Hb. apply andb_true_iff in Hb.
    destruct Hb as [D C]. apply str_eqb_eq in D. split; assumption.
  - apply Forall_forall. intros b Hb. apply filter_In in Hb.
    destruct Hb as [_ Hb]. apply negb_true_iff in Hb. intros [D C].
    unfold p in Hb. rewrite C, andb_true_r in Hb.
    apply str_eqb_neq in Hb. contradiction.
  - reflexivity.
Qed.

(** In a time zone that keeps one offset, [weeklyData] has seven entries,
    for the seven calendar days that end with the UTC date of now, the
    oldest first; the entry of a day carries the month and the day of its
    date and the number of blocks of that date that are completed, 0
    throughout on an empty store. *)
Theorem weeklyData_fixed_offset offset now st :
  let clock := pageClock (fixedZone offset) now in
  Forall2 (fun e i =>
             day_label e = slice 5 (isoDate (Day now - i)) /\
             counts_completed (isoDate (Day now - i)) (blocks st)
                              (day_completed e))
          (weeklyData clock st) [6; 5; 4; 3; 2; 1; 0]%Z /\
  (blocks st = [] ->
   map day_completed (weeklyData clock st) = [0; 0; 0; 0; 0; 0; 0]).
Proof.
  cbv zeta. split.
  - unfold weeklyData, last7Days. cbn [map seq].
    rewrite !pageClock_fixed.
    repeat (apply Forall2_cons;
            [split; [reflexivity | apply counts_completed_on]|]).
    apply Forall2_nil.
  - intros E. unfold weeklyData. rewrite E. reflexivity.
Qed.

Lemma weeklyData_fixed_offset_witness :
  let st := mkState [] (js "Run") Work false in
  blocks st = [] /\
  map day_completed
      (weeklyData (pageClock (fixedZone msPerHour) march10_evening) st)
    = [0; 0; 0; 0; 0; 0; 0].
Proof.
  intros st. split; [reflexivity|].
  exact (proj2 (weeklyData_fixed_offset msPerHour march10_evening st)
               eq_refl).
Defined.

(** C6. New York, 2024-03-10 at 23:30Z. The seven days that end today are
    03-04 to 03-10. [last7Days] steps local time and prints UTC dates:
    03-05 to 03-10, and 03-10 once more. The chart has a bar for 03-10
    twice, each with the one block completed that day, and none for
    03-04, whose completed block is not shown. *)
Theorem weeklyData_repeats_a_day :
  let clock := pageClock newYork march10_evening in
  let st := store [ block 1 "Run" true "2024-03-10" false 0;
                    block 2 "Plan" true "2024-03-04" false 0 ] in
  map (fun i => slice 5 (isoDate (Day march10_evening - i)))
      [6; 5; 4; 3; 2; 1; 0]%Z =
    [ js "03-04"; js "03-05"; js "03-06"; js "03-07"; js "03-08";
      js "03-09"; js "03-10" ] /\
  weeklyData clock st =
    [ mkDayCount (js "03-05") 0; mkDayCount (js "03-06") 0;
      mkDayCount (js "03-07") 0; mkDayCount (js "03-08") 0;
      mkDayCount (js "03-09") 0; mkDayCount (js "03-10") 1;
      mkDayCount (js "03-10") 1 ] /\
  counts_completed (js "2024-03-04") (blocks st) 1 /\
  ~ In (js "03-04") (map day_label (weeklyData clock st)).
Proof.
  intros clock st.
  assert (W : weeklyData clock st =
    [ mkDayCount (js "03-05") 0; mkDayCount (js "03-06") 0;
      mkDayCount (js "03-07") 0; mkDayCount (js "03-08") 0;
      mkDayCount (js "03-09") 0; mkDayCount (js "03-10") 1;
      mkDayCount (js "03-10") 1 ]) by (vm_compute; reflexivity).
  split; [vm_compute; reflexivity|]. split; [exact W|]. split.
  - replace 1 with (completed_on (js "2024-03-04") (blocks st))
      by (vm_compute; reflexivity).
    apply counts_completed_on.
  - rewrite W. vm_compute. intros H.
    repeat (destruct H as [H|H]; [discriminate H|]). exact H.
Qed.
